(** * opengcs: the runC runtime wrapper (service/gcs/runtime/runc)

    A shallow embedding of [runc.go], [ioutils.go] and of the [runtime]
    package's [StdioPipes], with the properties of the process-state
    reconciler, of the process supervisor's directory bookkeeping, of the
    console socket channel, of the pty allocator and of the stdio handle
    set.

    Operating-system facilities (the runC binary, /proc, the container files
    directory, sockets, file descriptors) are inputs of the model: each
    operation takes a record that says what the system answers, and, where
    the code changes the system, an explicit state that it transforms. *)

From Stdlib Require Import ZArith Ascii String List Lia Bool.
From stdpp Require Import base option list gmap strings fin_maps.

Local Open Scope string_scope.
Local Open Scope Z_scope.

(** Go's [(value, error)] returns. *)
Inductive result (E A : Type) : Type :=
| Ok (a : A)
| Fail (e : E).
Arguments Ok {E A} a.
Arguments Fail {E A} e.

(** ** strconv and path helpers of the Go standard library *)
Module Strconv.

(** [int] is 64 bits wide on the platforms the guest agent runs on. *)
Definition minInt : Z := - 2 ^ 63.
Definition maxInt : Z := 2 ^ 63 - 1.

Definition digitOf (c : ascii) : option Z :=
  let n := Z.of_N (N_of_ascii c) in
  if (48 <=? n) && (n <=? 57) then Some (n - 48) else None.

Fixpoint parseDigits (s : string) (acc : Z) : option Z :=
  match s with
  | EmptyString => Some acc
  | String c rest =>
      match digitOf c with
      | Some d => parseDigits rest (acc * 10 + d)
      | None => None
      end
  end.

(** [strconv.Atoi]: an optional sign, then one or more decimal digits, the
    value in the range of [int]; [None] stands for the returned error. *)
Definition Atoi (s : string) : option Z :=
  let '(neg, body) :=
    match s with
    | String "-"%char rest => (true, rest)
    | String "+"%char rest => (false, rest)
    | _ => (false, s)
    end in
  match body with
  | EmptyString => None
  | _ =>
      match parseDigits body 0 with
      | Some n =>
          let v := if neg then - n else n in
          if (minInt <=? v) && (v <=? maxInt) then Some v else None
      | None => None
      end
  end.

Definition digitChar (d : Z) : ascii := ascii_of_N (Z.to_N (48 + d)).

Fixpoint utoa (fuel : nat) (n : Z) (acc : string) : string :=
  let acc' := String (digitChar (n mod 10)) acc in
  match fuel with
  | O => acc'
  | S fuel' => if n <? 10 then acc' else utoa fuel' (n / 10) acc'
  end.

(** [strconv.Itoa]: the decimal form, with a minus sign when negative. *)
Definition Itoa (z : Z) : string :=
  if z <? 0 then String "-"%char (utoa (Z.to_nat (Z.log2 (- z))) (- z) "")
  else utoa (Z.to_nat (Z.log2 z)) z "".

(** [filepath.Join] of two clean components. *)
Definition Join (dir name : string) : string := dir ++ "/" ++ name.

End Strconv.

(** Constants of runc.go. *)
Definition runcPath : string := "/sbin/runc".
Definition containerFilesDir : string := "/var/lib/gcsrunc".
Definition initPidFilename : string := "initpid".

(** ** The process state reconciler: GetRunningProcesses, GetAllProcesses *)
Module Reconciler.
Import Strconv.

(** [runtime.ContainerProcessState]. *)
Record ContainerProcessState : Type := mkState {
  Pid : Z;
  Command : list string;
  CreatedByRuntime : bool;
  IsZombie : bool
}.

Global Instance ContainerProcessState_eq_dec : EqDecision ContainerProcessState.
Proof. solve_decision. Defined.

(** One constructor per place where the two functions and their helpers
    build an error. *)
Inductive error : Type :=
| ErrRuncPs (out : string)            (* "runc ps failed with: %s" *)
| ErrUnmarshalPids (id : string)      (* "failed to unmarshal pids for container %s" *)
| ErrReadCmdline (pid : Z)            (* "failed to read cmdline file for process %d" *)
| ErrReadDir (path : string)          (* "failed to read the contents of container directory %s" *)
| ErrParseAsPid (name : string)       (* "failed to parse string \"%s\" as pid" *)
| ErrParseIntoPid (name : string).    (* "failed to parse string \"%s\" into pid" *)

(** The errors that report corrupted bookkeeping: a directory that cannot
    be listed, an entry that is not a pid. *)
Definition isBookkeepingCorruption (e : error) : bool :=
  match e with
  | ErrReadDir _ | ErrParseAsPid _ | ErrParseIntoPid _ => true
  | _ => false
  end.

(** What [runc ps -f json <id>] gives: a failed command with its output,
    output that is not a JSON array of integers, or the pids. *)
Inductive PsOutcome : Type :=
| PsFailed (out : string)
| PsGarbled (out : string)
| PsPids (pids : list Z).

(** What the operating system answers. [processExists] is the helper of
    the same name, defined outside runc.go and ioutils.go: it is an input. *)
Record OS : Type := mkOS {
  runcPs : string -> PsOutcome;
  readCmdline : Z -> option string;       (* ioutil.ReadFile /proc/<pid>/cmdline *)
  readDir : string -> option (list string); (* ioutil.ReadDir: the entries' names *)
  processExists : Z -> bool
}.

Definition getRunningPids (os : OS) (id : string) : result error (list Z) :=
  match runcPs os id with
  | PsFailed out => Fail (ErrRuncPs out)
  | PsGarbled _ => Fail (ErrUnmarshalPids id)
  | PsPids pids => Ok pids
  end.

Definition nul : ascii := ascii_of_N 0.

(** [strings.TrimSuffix s "\x00"]. *)
Fixpoint trimSuffixNul (s : string) : string :=
  match s with
  | EmptyString => EmptyString
  | String c EmptyString => if Ascii.eqb c nul then EmptyString else s
  | String c rest => String c (trimSuffixNul rest)
  end.

(** [strings.Split s "\x00"]: one more piece than there are separators. *)
Fixpoint splitNul (s : string) : list string :=
  match s with
  | EmptyString => [EmptyString]
  | String c rest =>
      if Ascii.eqb c nul then EmptyString :: splitNul rest
      else match splitNul rest with
           | piece :: pieces => String c piece :: pieces
           | [] => [String c EmptyString]
           end
  end.

Definition getProcessCommand (os : OS) (pid : Z) : result error (list string) :=
  match readCmdline os pid with
  | None => Fail (ErrReadCmdline pid)
  | Some data => Ok (splitNul (trimSuffixNul data))
  end.

(** The first loop of both functions: [pidMap[pid] = &ContainerProcessState{...}]. *)
Fixpoint seedPidMap (os : OS) (pids : list Z) (pidMap : gmap Z ContainerProcessState)
  : result error (gmap Z ContainerProcessState) :=
  match pids with
  | [] => Ok pidMap
  | pid :: rest =>
      match getProcessCommand os pid with
      | Fail e => Fail e
      | Ok command => seedPidMap os rest (<[pid := mkState pid command false false]> pidMap)
      end
  end.

(** [pidMap[pid].CreatedByRuntime = true] through the stored pointer. *)
Definition setCreatedByRuntime (st : ContainerProcessState) : ContainerProcessState :=
  mkState (Pid st) (Command st) true (IsZombie st).

(** The loop over [processDirs] of GetRunningProcesses. *)
Fixpoint scanRunning (names : list string) (pidMap : gmap Z ContainerProcessState)
  : result error (gmap Z ContainerProcessState) :=
  match names with
  | [] => Ok pidMap
  | name :: rest =>
      if String.eqb name initPidFilename then scanRunning rest pidMap
      else match Atoi name with
           | None => Fail (ErrParseAsPid name)
           | Some pid =>
               match pidMap !! pid with
               | Some _ => scanRunning rest (alter setCreatedByRuntime pid pidMap)
               | None => scanRunning rest pidMap
               end
           end
  end.

(** The loop over [processDirs] of GetAllProcesses. *)
Fixpoint scanAll (os : OS) (names : list string) (pidMap : gmap Z ContainerProcessState)
  : result error (gmap Z ContainerProcessState) :=
  match names with
  | [] => Ok pidMap
  | name :: rest =>
      if String.eqb name initPidFilename then scanAll os rest pidMap
      else match Atoi name with
           | None => Fail (ErrParseIntoPid name)
           | Some pid =>
               if processExists os pid then
                 match pidMap !! pid with
                 | Some _ => scanAll os rest (alter setCreatedByRuntime pid pidMap)
                 | None =>
                     match getProcessCommand os pid with
                     | Fail e => Fail e
                     | Ok command =>
                         scanAll os rest (<[pid := mkState pid command true true]> pidMap)
                     end
                 end
               else scanAll os rest pidMap
           end
  end.

(** [pidMapToProcessStates]: the values of the map, in the map's iteration
    order (which Go leaves unspecified; nothing below depends on it). *)
Definition pidMapToProcessStates (pidMap : gmap Z ContainerProcessState)
  : list ContainerProcessState :=
  (map_to_list pidMap).*2.

(** [filepath.Join(containerFilesDir, c.p.id)], the directory both
    functions list. *)
Definition containerDirOf (id : string) : string := Join containerFilesDir id.

Definition GetRunningProcesses (os : OS) (id : string)
  : result error (list ContainerProcessState) :=
  match getRunningPids os id with
  | Fail e => Fail e
  | Ok pids =>
      match seedPidMap os pids ∅ with
      | Fail e => Fail e
      | Ok pidMap =>
          match readDir os (containerDirOf id) with
          | None => Fail (ErrReadDir (containerDirOf id))
          | Some processDirs =>
              match scanRunning processDirs pidMap with
              | Fail e => Fail e
              | Ok pidMap' => Ok (pidMapToProcessStates pidMap')
              end
          end
      end
  end.

Definition GetAllProcesses (os : OS) (id : string)
  : result error (list ContainerProcessState) :=
  match getRunningPids os id with
  | Fail e => Fail e
  | Ok runningPids =>
      match seedPidMap os runningPids ∅ with
      | Fail e => Fail e
      | Ok pidMap =>
          match readDir os (containerDirOf id) with
          | None => Fail (ErrReadDir (containerDirOf id))
          | Some processDirs =>
              match scanAll os processDirs pidMap with
              | Fail e => Fail e
              | Ok pidMap' => Ok (pidMapToProcessStates pidMap')
              end
          end
      end
  end.

(** Whether the listing holds a process directory for [pid]: an entry other
    than the init-pid file whose name parses to [pid]. *)
Definition isPidDirOf (pid : Z) (name : string) : bool :=
  negb (String.eqb name initPidFilename) && bool_decide (Atoi name = Some pid).

Definition hasPidDir (names : list string) (pid : Z) : bool :=
  existsb (isPidDirOf pid) names.

(** An entry that neither is the init-pid file nor parses as an integer. *)
Definition isCorruptName (name : string) : bool :=
  negb (String.eqb name initPidFilename) && negb (bool_decide (is_Some (Atoi name))).

(** The two views agree on a pid when its two entries carry the same
    command, the same CreatedByRuntime and the same IsZombie. *)
Definition sameClassification (a b : ContainerProcessState) : Prop :=
  Command a = Command b /\
  CreatedByRuntime a = CreatedByRuntime b /\
  IsZombie a = IsZombie b.

Definition viewsAgree (os : OS) (id : string) : Prop :=
  forall running all,
    GetRunningProcesses os id = Ok running ->
    GetAllProcesses os id = Ok all ->
    forall r a, r ∈ running -> a ∈ all -> Pid r = Pid a -> sameClassification r a.

(** Existence and command lines are answers about one state of /proc:
    [processExists] looks for /proc/<pid> and the command line is read from
    /proc/<pid>/cmdline, so a process whose command line is read exists. *)
Definition oneProcState (os : OS) : Prop :=
  forall pid, is_Some (readCmdline os pid) -> processExists os pid = true.

(** Every entry is stored under its own pid. *)
Definition keyedByPid (pidMap : gmap Z ContainerProcessState) : Prop :=
  forall pid st, pidMap !! pid = Some st -> Pid st = pid.

(** Every entry other than the init-pid file has a name that parses. *)
Definition parsable (names : list string) : Prop :=
  forall name, name ∈ names -> name <> initPidFilename -> is_Some (Atoi name).

(** The entry after the scan has or has not set its CreatedByRuntime. *)
Definition markIf (b : bool) (st : ContainerProcessState) : ContainerProcessState :=
  if b then setCreatedByRuntime st else st.

(** A process directory for [pid] exists and so does the process. *)
Definition onDisk (os : OS) (names : list string) (pid : Z) : bool :=
  hasPidDir names pid && processExists os pid.

(** The command line of every pid that runC reports is readable. *)
Definition runningReadable (os : OS) (pids : list Z) : Prop :=
  forall pid, pid ∈ pids -> is_Some (readCmdline os pid).

(** The command line of every process that the scan would add is readable. *)
Definition zombiesReadable (os : OS) (names : list string) (pids : list Z) : Prop :=
  forall name pid,
    name ∈ names -> name <> initPidFilename -> Atoi name = Some pid ->
    processExists os pid = true -> pid ∉ pids -> is_Some (readCmdline os pid).

(** *** Sample systems *)

(** The contents of a cmdline file: every argument followed by a NUL. *)
Definition cmdlineFile (args : list string) : string :=
  fold_right (fun arg acc => arg ++ String nul acc) "" args.

Definition sampleCmdline (pid : Z) : option string :=
  if pid =? 10 then Some (cmdlineFile ["/sbin/init"])
  else if pid =? 11 then Some (cmdlineFile ["ping"; "google.com"])
  else if pid =? 12 then Some ""
  else None.

(** runC reports 10 and 11; only 11 has a process directory. *)
Definition osTwoRunning : OS :=
  {| runcPs := fun _ => PsPids [10; 11];
     readCmdline := sampleCmdline;
     readDir := fun _ => Some ["11"; "initpid"];
     processExists := fun pid => bool_decide (pid ∈ [10; 11]) |}.

(** As above, with a directory for pid 12, which has exited without being
    reaped: /proc still has it, runC does not report it. *)
Definition osWithZombie : OS :=
  {| runcPs := fun _ => PsPids [10; 11];
     readCmdline := sampleCmdline;
     readDir := fun _ => Some ["11"; "12"; "initpid"];
     processExists := fun pid => bool_decide (pid ∈ [10; 11; 12]) |}.

(** A container directory with a stray entry. *)
Definition osCorrupt : OS :=
  {| runcPs := fun _ => PsPids [10; 11];
     readCmdline := sampleCmdline;
     readDir := fun _ => Some ["11"; "abc"; "initpid"];
     processExists := fun pid => bool_decide (pid ∈ [10; 11]) |}.

End Reconciler.


(** ** The process supervisor: create, start, delete and their directories *)
Module Supervisor.
Import Strconv.

(** [process] and [container] of runc.go (the [r] field points to the
    stateless [runcRuntime]). *)
Record process : Type := mkProcess { id : string; pid : Z }.
Record container : Type := mkContainer { p : process }.

(** [runtime.StdioOptions]. *)
Record StdioOptions : Type := mkStdioOptions {
  CreateIn : bool;
  CreateOut : bool;
  CreateErr : bool
}.

Inductive error : Type :=
| ErrMakeContainerDir (id : string)
| ErrTempDir
| ErrOpenConfig (path : string)       (* "failed to open config file %s" *)
| ErrDecodeConfig                     (* "failed to decode config file as JSON" *)
| ErrSetSubreaper (id : string)       (* "failed to set process as subreaper for process in container %s" *)
| ErrResolveUnixAddr (path : string)  (* "failed to resolve unix socket at address %s" *)
| ErrListenUnix (path : string)       (* "failed to listen on unix socket at address %s" *)
| ErrSetupIO
| ErrRuncCallStart (id : string)      (* "failed to start runc create/exec call for container %s" *)
| ErrRuncCallWait (id : string)       (* "failed to wait on runc create/exec call for container %s" *)
| ErrReadPidFile
| ErrRename
| ErrWriteInitPid
| ErrRuncStart (out : string)         (* "runc start failed with: %s" *)
| ErrRuncDelete (out : string)        (* "runc delete failed with: %s" *)
| ErrRemoveContainerDir (id : string)
| ErrRemoveProcessDir (id : string) (pid : Z).

(** The supervisor's bookkeeping on disk: the paths that exist under
    [containerFilesDir] (container directories, process directories and the
    init-pid files). *)
Abbreviation FS := (gset string).

(** How a [cmd.Start] followed by [cmd.Wait] ends. *)
Inductive CmdOutcome : Type :=
| CmdStartFailed
| CmdWaitFailed
| CmdExitedZero.

(** How reading the bundle's config.json ends. *)
Inductive ConfigOutcome : Type :=
| ConfigUnreadable
| ConfigMalformed
| ConfigTerminal (terminal : bool).

(** What the system answers to the supervisor's calls. [logPath] is the
    value of [getLogPath], [readPidFile] the helper of that name and
    [setupIOWithoutTerminal] the success of the helper of that name: the
    three are defined outside runc.go and ioutils.go and are inputs. *)
Record World : Type := mkWorld {
  logPath : string;
  combinedOutput : list string -> string * bool;  (* exec.Command(runcPath, args...).CombinedOutput() *)
  runCmd : list string -> CmdOutcome;             (* cmd.Start(); cmd.Wait() *)
  mkdirAll : string -> bool;                      (* os.MkdirAll succeeds *)
  tempSuffix : option string;                     (* the random suffix ioutil.TempDir picks *)
  readConfig : string -> ConfigOutcome;
  setSubreaper : bool;                            (* containerdsys.SetSubreaper(1) succeeds *)
  resolveUnixAddr : string -> bool;
  listenUnix : string -> bool;
  setupIOWithoutTerminal : string -> string -> StdioOptions -> bool;
  readPidFile : string -> option Z;
  rename : string -> string -> bool;              (* os.Rename succeeds *)
  writeFile : string -> bool;                     (* ioutil.WriteFile succeeds *)
  removeAll : string -> bool                      (* os.RemoveAll succeeds *)
}.

(** Operations that may fail and that change the directories. *)
Definition M (A : Type) : Type := FS -> result error A * FS.

Definition ret {A} (a : A) : M A := fun fs => (Ok a, fs).
Definition fail {A} (e : error) : M A := fun fs => (Fail e, fs).
Definition bind {A B} (m : M A) (k : A -> M B) : M B :=
  fun fs =>
    match m fs with
    | (Ok a, fs') => k a fs'
    | (Fail e, fs') => (Fail e, fs')
    end.
Definition modify (f : FS -> FS) : M unit := fun fs => (Ok tt, f fs).
Definition check (ok : bool) (e : error) : M unit := if ok then ret tt else fail e.

Notation "x <- m ;; k" := (bind m (fun x => k))
  (at level 90, m at next level, right associativity).
Notation "m ;;; k" := (bind m (fun _ => k))
  (at level 90, right associativity).

Definition isUnder (dir path : string) : bool :=
  String.eqb path dir || String.prefix (dir ++ "/") path.

(** What is left after [os.RemoveAll dir]. *)
Definition removeTree (dir : string) (fs : FS) : FS :=
  filter (fun path => isUnder dir path = false) fs.

(** Where a path ends up after [os.Rename src dst] of a directory. *)
Definition rebase (src dst path : string) : string :=
  if isUnder src path
  then dst ++ String.substring (String.length src)
                               (String.length path - String.length src)%nat path
  else path.

Definition renameTree (src dst : string) (fs : FS) : FS :=
  set_map (rebase src dst) fs.

(** Modelled from the spec: [getContainerDir], defined outside runc.go and
    ioutils.go; "a fixed root directory holds one subdirectory per container
    id". GetRunningProcesses lists the same path. *)
Definition getContainerDir (id : string) : string := Join containerFilesDir id.

(** Modelled from the spec: [makeContainerDir], defined outside runc.go and
    ioutils.go; it creates the container's subdirectory of the root
    directory. *)
Definition makeContainerDir (w : World) (id : string) : M unit :=
  check (mkdirAll w (getContainerDir id)) (ErrMakeContainerDir id) ;;;
  modify (fun fs => {[ getContainerDir id ]} ∪ fs).

(** Modelled from the spec: [cleanupContainer], defined outside runc.go and
    ioutils.go; it "removes the supervisor's own on-disk bookkeeping for
    that id", the container's directory with all that is in it. *)
Definition cleanupContainer (w : World) (id : string) : M unit :=
  check (removeAll w (getContainerDir id)) (ErrRemoveContainerDir id) ;;;
  modify (removeTree (getContainerDir id)).

(** Modelled from the spec: [getProcessDir], defined outside runc.go and
    ioutils.go; the process's directory, "renamed to the decimal pid string
    once started" (the target of the rename in [startProcess]). *)
Definition getProcessDir (id : string) (pid : Z) : string :=
  Join (getContainerDir id) (Itoa pid).

(** Modelled from the spec: [cleanupProcess], defined outside runc.go and
    ioutils.go; it removes the process's directory with all that is in
    it. *)
Definition cleanupProcess (w : World) (id : string) (pid : Z) : M unit :=
  check (removeAll w (getProcessDir id pid)) (ErrRemoveProcessDir id pid) ;;;
  modify (removeTree (getProcessDir id pid)).

(** [ioutil.TempDir dir prefix]: a new directory whose name is the prefix
    followed by a random suffix. *)
Definition TempDir (w : World) (dir pfx : string) : M string :=
  match tempSuffix w with
  | None => fail ErrTempDir
  | Some sfx =>
      modify (fun fs => {[ Join dir (pfx ++ sfx) ]} ∪ fs) ;;;
      ret (Join dir (pfx ++ sfx))
  end.

Definition hasTerminal (w : World) (bundlePath : string) : M bool :=
  match readConfig w (Join bundlePath "config.json") with
  | ConfigUnreadable => fail (ErrOpenConfig (Join bundlePath "config.json"))
  | ConfigMalformed => fail ErrDecodeConfig
  | ConfigTerminal terminal => ret terminal
  end.

(** [createConsoleSocket] of ioutils.go; the listener itself is handed to
    the goroutine that waits for the terminal master. *)
Definition createConsoleSocket (w : World) (processDir : string) : M string :=
  let socketPath := Join processDir "master.sock" in
  check (resolveUnixAddr w socketPath) (ErrResolveUnixAddr socketPath) ;;;
  check (listenUnix w socketPath) (ErrListenUnix socketPath) ;;;
  ret socketPath.

(** [startProcess]. The goroutine running [setupIOForTerminal] only logs
    its error and does not touch the directories. *)
Definition startProcess (w : World) (id tempProcessDir : string) (terminal : bool)
    (stdioOptions : StdioOptions) (initialArgs : list string) : M process :=
  check (setSubreaper w) (ErrSetSubreaper id) ;;;
  let args := (["--log"; logPath w] ++ initialArgs)%list in
  let args := (args ++ ["--pid-file"; Join tempProcessDir "pid"])%list in
  args <- (if terminal
           then consoleSockPath <- createConsoleSocket w tempProcessDir ;;
                ret (args ++ ["--console-socket"; consoleSockPath])%list
           else check (setupIOWithoutTerminal w id tempProcessDir stdioOptions) ErrSetupIO ;;;
                ret args) ;;
  let args := (args ++ [id])%list in
  match runCmd w args with
  | CmdStartFailed => fail (ErrRuncCallStart id)
  | CmdWaitFailed => fail (ErrRuncCallWait id)
  | CmdExitedZero =>
      match readPidFile w (Join tempProcessDir "pid") with
      | None => fail ErrReadPidFile
      | Some pid =>
          let processDir := Join (getContainerDir id) (Itoa pid) in
          check (rename w tempProcessDir processDir) ErrRename ;;;
          modify (renameTree tempProcessDir processDir) ;;;
          ret (mkProcess id pid)
      end
  end.

Definition runCreateCommand (w : World) (id bundlePath : string)
    (stdioOptions : StdioOptions) : M container :=
  makeContainerDir w id ;;;
  tempProcessDir <- TempDir w containerFilesDir id ;;
  terminal <- hasTerminal w bundlePath ;;
  let args := ["create"; "-b"; bundlePath; "--no-pivot"] in
  p <- startProcess w id tempProcessDir terminal stdioOptions args ;;
  let containerDir := getContainerDir id in
  check (writeFile w (Join containerDir initPidFilename)) ErrWriteInitPid ;;;
  modify (fun fs => {[ Join containerDir initPidFilename ]} ∪ fs) ;;;
  ret (mkContainer p).

Definition CreateContainer (w : World) (id bundlePath : string)
    (stdioOptions : StdioOptions) : M container :=
  fun fs =>
    match runCreateCommand w id bundlePath stdioOptions fs with
    | (Fail e, fs') => (Fail e, fs')
    | (Ok c, fs') => (Ok c, fs')
    end.

(** [container.Start]: a failed start removes the container's directory,
    whatever that removal returns. *)
Definition Start (w : World) (c : container) : M unit :=
  let '(out, ok) := combinedOutput w ["--log"; logPath w; "start"; id (p c)] in
  if ok then ret tt
  else fun fs =>
         let '(_, fs') := cleanupContainer w (id (p c)) fs in
         (Fail (ErrRuncStart out), fs').

(** [container.Delete]. *)
Definition Delete (w : World) (c : container) : M unit :=
  let '(out, ok) := combinedOutput w ["--log"; logPath w; "delete"; id (p c)] in
  if ok then cleanupContainer w (id (p c))
  else fail (ErrRuncDelete out).

(** [process.Delete]. *)
Definition processDelete (w : World) (p : process) : M unit :=
  cleanupProcess w (id p) (pid p).

(** What the claim on deletion asks of every call: afterwards the
    container's directory does not exist. *)
Definition deleteRemovesDir (w : World) (c : container) (fs : FS) : Prop :=
  getContainerDir (id (p c)) ∉ (Delete w c fs).2.

(** What the claim on a failed create asks: when the call of runC fails
    (both directories have been made by then), neither the container's
    directory nor the temporary process directory is left. *)
Definition createLeavesNothing (w : World) (id bundlePath : string)
    (stdioOptions : StdioOptions) (fs : FS) : Prop :=
  forall e fs',
    CreateContainer w id bundlePath stdioOptions fs = (Fail e, fs') ->
    e = ErrRuncCallStart id \/ e = ErrRuncCallWait id ->
    (getContainerDir id ∉ fs') /\
    (forall sfx, tempSuffix w = Some sfx -> Join containerFilesDir (id ++ sfx) ∉ fs').

(** *** Sample systems *)

(** Every call succeeds; runC starts the process as pid 4711. *)
Definition worldFine : World :=
  {| logPath := "/var/lib/gcsrunc/runc.log";
     combinedOutput := fun _ => ("", true);
     runCmd := fun _ => CmdExitedZero;
     mkdirAll := fun _ => true;
     tempSuffix := Some "123456789";
     readConfig := fun _ => ConfigTerminal false;
     setSubreaper := true;
     resolveUnixAddr := fun _ => true;
     listenUnix := fun _ => true;
     setupIOWithoutTerminal := fun _ _ _ => true;
     readPidFile := fun _ => Some 4711;
     rename := fun _ _ => true;
     writeFile := fun _ => true;
     removeAll := fun _ => true |}.

(** As [worldFine], but every runC invocation exits with a failure. *)
Definition worldRuncFails : World :=
  {| logPath := "/var/lib/gcsrunc/runc.log";
     combinedOutput := fun _ => ("container is not stopped", false);
     runCmd := fun _ => CmdWaitFailed;
     mkdirAll := fun _ => true;
     tempSuffix := Some "123456789";
     readConfig := fun _ => ConfigTerminal false;
     setSubreaper := true;
     resolveUnixAddr := fun _ => true;
     listenUnix := fun _ => true;
     setupIOWithoutTerminal := fun _ _ _ => true;
     readPidFile := fun _ => Some 4711;
     rename := fun _ _ => true;
     writeFile := fun _ => true;
     removeAll := fun _ => true |}.

Definition sampleContainer : container := mkContainer (mkProcess "c1" 4711).

Definition sampleFS : FS :=
  {[ "/var/lib/gcsrunc/c1"; "/var/lib/gcsrunc/c1/4711"; "/var/lib/gcsrunc/c1/initpid" ]}.

Definition noStdio : StdioOptions := mkStdioOptions false false false.

End Supervisor.

(** ** The console socket channel: getMasterFromSocket *)
Module Console.

Definition maxNameLen : Z := 4096.

(** [unix.CmsgSpace] of golang.org/x/sys/unix on 64-bit Linux. *)
Definition SizeofPtr : Z := 8.
Definition SizeofCmsghdr : Z := 16.
Definition cmsgAlignOf (salen : Z) : Z :=
  Z.land (salen + SizeofPtr - 1) (Z.lnot (SizeofPtr - 1)).
Definition CmsgSpace (datalen : Z) : Z :=
  cmsgAlignOf SizeofCmsghdr + cmsgAlignOf datalen.

Definition oobSpace : Z := CmsgSpace 4.

(** [unix.SocketControlMessage]. *)
Record SocketControlMessage : Type := mkMessage {
  cmsgLevel : Z;
  cmsgType : Z;
  cmsgData : list Byte.byte
}.

(** [os.File] as [os.NewFile fd name] makes it. *)
Record File : Type := NewFile { fileFd : Z; fileName : string }.

Inductive error : Type :=
| ErrAccept
| ErrNotUnixConn
| ErrReadMsg
| ErrInvalidByteCount (n oobn : Z)
| ErrParseControlMessage (oob : list Byte.byte)
| ErrNoControlMessages
| ErrManyControlMessages (count : nat)
| ErrParseUnixRights (message : SocketControlMessage)
| ErrNoFileDescriptors
| ErrManyFileDescriptors (count : nat).

(** The text (for [Errorf] and [Wrapf], the format) given where each
    error is built: what tells one kind of failure from another. *)
Definition errorText (e : error) : string :=
  match e with
  | ErrAccept => "failed to get terminal master file descriptor from socket"
  | ErrNotUnixConn => "connection returned from Accept was not a unix socket"
  | ErrReadMsg => "failed to read message from unix socket"
  | ErrInvalidByteCount _ _ => "read an invalid number of bytes (n=%d oobn=%d)"
  | ErrParseControlMessage _ => "failed to parse socket control message for oob %v"
  | ErrNoControlMessages => "did not receive any socket control messages"
  | ErrManyControlMessages _ => "received more than one socket control message: received %d"
  | ErrParseUnixRights _ => "failed to parse file descriptors out of message %v"
  | ErrNoFileDescriptors => "did not receive any file descriptors"
  | ErrManyFileDescriptors _ => "received more than one file descriptor: received %d"
  end.

(** What [ReadMsgUnix] gives: an error, or the two counts with the two
    buffers as the read left them. *)
Inductive ReadOutcome : Type :=
| ReadFailed
| ReadMsg (n oobn : Z) (name oob : list Byte.byte).

(** What [listener.Accept] gives. *)
Inductive AcceptOutcome : Type :=
| AcceptFailed
| AcceptedOther
| AcceptedUnix (msg : ReadOutcome).

(** The peer and the two parsers of golang.org/x/sys/unix. *)
Record Net : Type := mkNet {
  accept : AcceptOutcome;
  ParseSocketControlMessage : list Byte.byte -> option (list SocketControlMessage);
  ParseUnixRights : SocketControlMessage -> option (list Z)
}.

(** The calls the function makes, in order. *)
Inductive Event : Type :=
| EvAccept
| EvReadMsgUnix
| EvParseSocketControlMessage (oob : list Byte.byte)
| EvParseUnixRights (message : SocketControlMessage)
| EvNewFile (fd : Z) (name : string)
| EvCloseConn.

Definition isParseEvent (ev : Event) : bool :=
  match ev with
  | EvParseSocketControlMessage _ | EvParseUnixRights _ => true
  | _ => false
  end.

(** The part of getMasterFromSocket that follows the type assertion. *)
Definition readMaster (net : Net) (msg : ReadOutcome) : result error File * list Event :=
  match msg with
  | ReadFailed => (Fail ErrReadMsg, [EvReadMsgUnix])
  | ReadMsg n oobn name oob =>
      if (n >=? maxNameLen) || negb (oobn =? oobSpace)
      then (Fail (ErrInvalidByteCount n oobn), [EvReadMsgUnix])
      else
        let name := take (Z.to_nat n) name in
        let oob := take (Z.to_nat oobn) oob in
        match ParseSocketControlMessage net oob with
        | None =>
            (Fail (ErrParseControlMessage oob),
             [EvReadMsgUnix; EvParseSocketControlMessage oob])
        | Some messages =>
            match messages with
            | [] =>
                (Fail ErrNoControlMessages,
                 [EvReadMsgUnix; EvParseSocketControlMessage oob])
            | _ :: _ :: _ =>
                (Fail (ErrManyControlMessages (length messages)),
                 [EvReadMsgUnix; EvParseSocketControlMessage oob])
            | [message] =>
                let evs := [EvReadMsgUnix; EvParseSocketControlMessage oob;
                            EvParseUnixRights message] in
                match ParseUnixRights net message with
                | None => (Fail (ErrParseUnixRights message), evs)
                | Some [] => (Fail ErrNoFileDescriptors, evs)
                | Some ((_ :: _ :: _) as fds) =>
                    (Fail (ErrManyFileDescriptors (length fds)), evs)
                | Some [fd] =>
                    (Ok (NewFile fd (string_of_list_byte name)),
                     (evs ++ [EvNewFile fd (string_of_list_byte name)])%list)
                end
            end
        end
  end.

(** [getMasterFromSocket]; the deferred [conn.Close] runs last on every
    path that follows a successful Accept. *)
Definition getMasterFromSocket (net : Net) : result error File * list Event :=
  match accept net with
  | AcceptFailed => (Fail ErrAccept, [EvAccept])
  | AcceptedOther => (Fail ErrNotUnixConn, [EvAccept; EvCloseConn])
  | AcceptedUnix msg =>
      let '(r, evs) := readMaster net msg in
      (r, (EvAccept :: evs ++ [EvCloseConn])%list)
  end.

(** What the claim on oversized names asks of the error kinds: a name that
    is too long and an ancillary buffer of the wrong size fail with
    different texts. *)
Definition oversizedNameIsItsOwnKind : Prop :=
  forall net1 net2 n1 oobn1 name1 oob1 n2 oobn2 name2 oob2 e1 e2,
    accept net1 = AcceptedUnix (ReadMsg n1 oobn1 name1 oob1) ->
    accept net2 = AcceptedUnix (ReadMsg n2 oobn2 name2 oob2) ->
    n1 >= maxNameLen ->
    n2 < maxNameLen -> oobn2 <> oobSpace ->
    (getMasterFromSocket net1).1 = Fail e1 ->
    (getMasterFromSocket net2).1 = Fail e2 ->
    errorText e1 <> errorText e2.

(** *** Sample peers *)

Definition zeros (k : nat) : list Byte.byte := repeat Byte.x00 k.

Definition rightsMessage : SocketControlMessage :=
  mkMessage 1 1 [Byte.x07; Byte.x00; Byte.x00; Byte.x00].

Definition sampleParsers (accepted : AcceptOutcome) : Net :=
  {| accept := accepted;
     ParseSocketControlMessage := fun _ => Some [rightsMessage];
     ParseUnixRights := fun _ => Some [7] |}.

(** A peer whose name payload fills the whole 4096-byte buffer. *)
Definition netOversized : Net :=
  sampleParsers (AcceptedUnix (ReadMsg 4096 24 (zeros 4096) (zeros 24))).

(** A peer that sends a short name and no ancillary data. *)
Definition netNoAncillary : Net :=
  sampleParsers (AcceptedUnix (ReadMsg 9 0 (list_byte_of_string "/dev/ptmx" ++ zeros 4087) (zeros 24))).

(** A well-formed message: nine name bytes and one descriptor. *)
Definition netGood : Net :=
  sampleParsers (AcceptedUnix (ReadMsg 9 24 (list_byte_of_string "/dev/ptmx" ++ zeros 4087) (zeros 24))).

End Console.

(** ** The pty allocator: NewConsole *)
Module Pty.
Import Strconv.

Inductive error : Type :=
| ErrOpenPtmx       (* "failed to open master pseudoterminal file" *)
| ErrPtsname        (* "ioctl TIOCGPTN failed for ptsname" *)
| ErrUnlockpt       (* "ioctl TIOCSPTLCK failed for unlockpt" *)
| ErrChmod          (* "failed to change permissions on the slave pseudoterminal file" *)
| ErrChown.         (* "failed to change ownership on the slave pseudoterminal file" *)

(** What the kernel answers. *)
Record Kernel : Type := mkKernel {
  openPtmx : option Z;          (* os.OpenFile "/dev/ptmx": the new descriptor *)
  ioctlTIOCGPTN : Z -> option Z;  (* the slave's number *)
  ioctlTIOCSPTLCK : Z -> bool;
  chmod : string -> bool;
  chown : string -> bool
}.

(** The descriptors the process holds open. *)
Abbreviation Fds := (gset Z).

Definition ptsname (k : Kernel) (f : Z) : result error string :=
  match ioctlTIOCGPTN k f with
  | None => Fail ErrPtsname
  | Some n => Ok ("/dev/pts/" ++ Itoa n)
  end.

Definition unlockpt (k : Kernel) (f : Z) : option error :=
  if ioctlTIOCSPTLCK k f then None else Some ErrUnlockpt.

(** [NewConsole]: the three returned values, and the open descriptors
    after the call. No path of the function closes a descriptor. *)
Definition NewConsole (k : Kernel) (fds : Fds) : (option Z * string * option error) * Fds :=
  match openPtmx k with
  | None => ((None, "", Some ErrOpenPtmx), fds)
  | Some master =>
      let fds := {[ master ]} ∪ fds in
      match ptsname k master with
      | Fail e => ((None, "", Some e), fds)
      | Ok console =>
          match unlockpt k master with
          | Some e => ((None, "", Some e), fds)
          | None =>
              if negb (chmod k console) then ((None, "", Some ErrChmod), fds)
              else if negb (chown k console) then ((None, "", Some ErrChown), fds)
              else ((Some master, console, None), fds)
          end
      end
  end.

(** A descriptor is leaked by a call when it is open afterwards and the
    caller has not been given it. *)
Definition leaked (fd : Z) (out : (option Z * string * option error) * Fds) : Prop :=
  fd ∈ out.2 /\ out.1.1.1 <> Some fd.

(** What the claim on failures asks: when the master has been opened and
    the call returns an error, the master is not leaked. *)
Definition failureDoesNotLeak (k : Kernel) (fds : Fds) : Prop :=
  forall master,
    openPtmx k = Some master -> master ∉ fds ->
    (NewConsole k fds).1.2 <> None ->
    ~ leaked master (NewConsole k fds).

(** *** Sample kernels *)

Definition kernelFine : Kernel :=
  {| openPtmx := Some 5;
     ioctlTIOCGPTN := fun _ => Some 3;
     ioctlTIOCSPTLCK := fun _ => true;
     chmod := fun _ => true;
     chown := fun _ => true |}.

(** The slave cannot be given to owner and group zero. *)
Definition kernelChownFails : Kernel :=
  {| openPtmx := Some 5;
     ioctlTIOCGPTN := fun _ => Some 3;
     ioctlTIOCSPTLCK := fun _ => true;
     chmod := fun _ => true;
     chown := fun _ => false |}.

Definition sampleFds : Fds := {[ 0; 1; 2 ]}.

End Pty.

(** ** The stdio handle set: runtime.StdioPipes *)
Module Stdio.

(** A stream is known by its identity; two members of a handle set may hold
    the same stream. *)
Definition Stream : Type := nat.

(** [StdioPipes]: an interface value is [None] when nil. *)
Record StdioPipes : Type := mkPipes {
  In : option Stream;
  Out : option Stream;
  Err : option Stream;
  Pty : option Stream
}.

(** What a stream's [Close] returns, given the streams closed before. *)
Definition Closer : Type := Stream -> list Stream -> option string.

(** [pipes.X.Close(); pipes.X = nil] under [if pipes.X != nil]: the call is
    recorded in the log of closed streams, what it returns is dropped. *)
Definition closeMember (closer : Closer) (member : option Stream) (closed : list Stream)
  : option Stream * list Stream :=
  match member with
  | None => (None, closed)
  | Some s =>
      let _ := closer s closed in
      (None, (closed ++ [s])%list)
  end.

(** [Close], on a receiver that may be the nil pointer: the returned error,
    the handle set after the call, and the log of closed streams. *)
Definition Close (closer : Closer) (pipes : option StdioPipes) (closed : list Stream)
  : option string * option StdioPipes * list Stream :=
  match pipes with
  | None => (None, None, closed)
  | Some ps =>
      let '(i, closed) := closeMember closer (In ps) closed in
      let '(o, closed) := closeMember closer (Out ps) closed in
      let '(e, closed) := closeMember closer (Err ps) closed in
      let '(t, closed) := closeMember closer (Pty ps) closed in
      (None, Some (mkPipes i o e t), closed)
  end.

(** The non-nil members, in the order Close visits them. *)
Definition members (pipes : option StdioPipes) : list Stream :=
  match pipes with
  | None => []
  | Some ps => omap id [In ps; Out ps; Err ps; Pty ps]
  end.

(** *** Samples *)

(** A stream's Close fails when the stream has been closed before. *)
Definition strictCloser : Closer :=
  fun s closed => if bool_decide (s ∈ closed) then Some "file already closed" else None.

Definition pipesNoTerminal : StdioPipes := mkPipes (Some 1%nat) (Some 2%nat) (Some 3%nat) None.

End Stdio.

(** ** The rest of the container's operations: wait, exists, exec *)
Module Lifecycle.
Import Strconv Supervisor.

(** [runtime.ContainerState]. *)
Record ContainerState : Type := mkContainerState {
  OCIVersion : string;
  ID : string;
  Pid : Z;
  BundlePath : string;
  RootfsPath : string;
  Status : string;
  Created : string
}.

Inductive error : Type :=
| ErrReconcile (e : Reconciler.error)  (* what GetAllProcesses returned *)
| ErrFindProcess (pid : Z)             (* "failed to find process %d" *)
| ErrWaitProcess (pid : Z)             (* "failed waiting on process %d" *)
| ErrRuncList (out : string)           (* "runc list failed with: %s" *)
| ErrUnmarshalStates                   (* "failed to unmarshal the states for the container list" *)
| ErrSupervisor (e : Supervisor.error) (* what TempDir or startProcess returned *)
| ErrCreateProcessJson (path : string) (* "failed to create process.json file at %s" *)
| ErrEncodeProcessJson.                (* "failed to decode JSON from process.json file" *)

(** How [os.FindProcess] followed by [process.Wait] ends; the exit state
    is kept as the number [realos.NewProcessExitState] wraps. *)
Inductive WaitOutcome : Type :=
| FindProcessFailed
| ProcessWaitFailed
| Exited (state : Z).

(** What waiting on a pid gives, given the pids waited on before. *)
Definition Waiter : Type := Z -> list Z -> WaitOutcome.

(** [waitOnProcess]: the result, and the log of the pids it was called on. *)
Definition waitOnProcess (waiter : Waiter) (pid : Z) (waited : list Z)
  : result error Z * list Z :=
  match waiter pid waited with
  | FindProcessFailed => (Fail (ErrFindProcess pid), (waited ++ [pid])%list)
  | ProcessWaitFailed => (Fail (ErrWaitProcess pid), (waited ++ [pid])%list)
  | Exited state => (Ok state, (waited ++ [pid])%list)
  end.

(** The loop of [container.Wait]: the non-init processes created by the
    runtime are waited on, what the waits return is dropped. *)
Fixpoint waitOnOthers (waiter : Waiter) (initPid : Z)
    (processes : list Reconciler.ContainerProcessState) (waited : list Z) : list Z :=
  match processes with
  | [] => waited
  | process :: rest =>
      if negb (Reconciler.Pid process =? initPid) && Reconciler.CreatedByRuntime process
      then waitOnOthers waiter initPid rest
             (waitOnProcess waiter (Reconciler.Pid process) waited).2
      else waitOnOthers waiter initPid rest waited
  end.

(** [container.Wait]. *)
Definition Wait (os : Reconciler.OS) (waiter : Waiter) (c : container)
  : result error Z * list Z :=
  match Reconciler.GetAllProcesses os (id (p c)) with
  | Fail e => (Fail (ErrReconcile e), [])
  | Ok processes =>
      waitOnProcess waiter (pid (p c))
        (waitOnOthers waiter (pid (p c)) processes [])
  end.

(** What [runc list -f json] gives. *)
Inductive ListOutcome : Type :=
| ListFailed (out : string)
| ListGarbled (out : string)
| ListStates (states : list ContainerState).

Definition ListContainerStates (runcList : ListOutcome)
  : result error (list ContainerState) :=
  match runcList with
  | ListFailed out => Fail (ErrRuncList out)
  | ListGarbled _ => Fail ErrUnmarshalStates
  | ListStates states => Ok states
  end.

(** The loop of [container.Exists], which returns at the first state with
    the container's id. *)
Fixpoint hasState (id : string) (states : list ContainerState) : bool :=
  match states with
  | [] => false
  | state :: rest => if String.eqb (ID state) id then true else hasState id rest
  end.

(** [container.Exists]. *)
Definition Exists (runcList : ListOutcome) (c : container) : result error bool :=
  match ListContainerStates runcList with
  | Fail e => Fail e
  | Ok states => Ok (hasState (id (p c)) states)
  end.

(** What the system answers to the two calls that only the exec path
    makes. *)
Record ExecWorld : Type := mkExecWorld {
  createFile : string -> bool;   (* os.Create succeeds *)
  encodeProcess : bool           (* json.NewEncoder(f).Encode(processDef) succeeds *)
}.

(** [runExecCommand]; [terminal] is [processDef.Terminal]. *)
Definition runExecCommand (w : World) (xw : ExecWorld) (c : container)
    (terminal : bool) (stdioOptions : StdioOptions) (fs : FS)
  : result error process * FS :=
  match TempDir w containerFilesDir (id (p c)) fs with
  | (Fail e, fs1) => (Fail (ErrSupervisor e), fs1)
  | (Ok tempProcessDir, fs1) =>
      if negb (createFile xw (Join tempProcessDir "process.json"))
      then (Fail (ErrCreateProcessJson (Join tempProcessDir "process.json")), fs1)
      else if negb (encodeProcess xw) then (Fail ErrEncodeProcessJson, fs1)
      else
        let args := ["exec"] in
        let args := (args ++ ["-d"; "--process"; Join tempProcessDir "process.json"])%list in
        match startProcess w (id (p c)) tempProcessDir terminal stdioOptions args fs1 with
        | (Fail e, fs2) => (Fail (ErrSupervisor e), fs2)
        | (Ok pr, fs2) => (Ok pr, fs2)
        end
  end.

(** [container.ExecProcess]. *)
Definition ExecProcess (w : World) (xw : ExecWorld) (c : container)
    (terminal : bool) (stdioOptions : StdioOptions) (fs : FS)
  : result error process * FS :=
  match runExecCommand w xw c terminal stdioOptions fs with
  | (Fail e, fs') => (Fail e, fs')
  | (Ok pr, fs') => (Ok pr, fs')
  end.

(** *** Samples *)

(** Waiting on a pid fails once the pid has been waited on. *)
Definition reapOnce : Waiter :=
  fun pid waited => if bool_decide (pid ∈ waited) then ProcessWaitFailed else Exited 0.

Definition containerTen : container := mkContainer (mkProcess "c1" 10).

Definition sampleStates : list ContainerState :=
  [ mkContainerState "1.0.0" "c0" 7 "/bundle0" "/bundle0/rootfs" "stopped" "2017-05-01";
    mkContainerState "1.0.0" "c1" 4711 "/bundle" "/bundle/rootfs" "running" "2017-05-02" ].

Definition execFine : ExecWorld := mkExecWorld (fun _ => true) true.

End Lifecycle.

(** ** Predicates used to state what the code does *)
Module Facts.
Import Strconv.

(** No NUL byte in the string. *)
Fixpoint nulFree (s : string) : bool :=
  match s with
  | EmptyString => true
  | String c rest => negb (Ascii.eqb c Reconciler.nul) && nulFree rest
  end.

(** The arguments with a NUL between them and none at the end. *)
Fixpoint joinNul (args : list string) : string :=
  match args with
  | [] => ""
  | [arg] => arg
  | arg :: rest => arg ++ String Reconciler.nul (joinNul rest)
  end.

(** The first pid of the list whose command line cannot be read. *)
Definition firstUnreadable (os : Reconciler.OS) (pids : list Z) : option Z :=
  find (fun pid => negb (bool_decide (is_Some (Reconciler.readCmdline os pid)))) pids.

Definition isCloseEvent (ev : Console.Event) : bool :=
  match ev with Console.EvCloseConn => true | _ => false end.

Definition isNewFileEvent (ev : Console.Event) : bool :=
  match ev with Console.EvNewFile _ _ => true | _ => false end.

Definition isRightsEvent (ev : Console.Event) : bool :=
  match ev with Console.EvParseUnixRights _ => true | _ => false end.

(** runC cannot list the container's processes. *)
Definition osPsFails : Reconciler.OS :=
  {| Reconciler.runcPs := fun _ => Reconciler.PsFailed "container does not exist";
     Reconciler.readCmdline := Reconciler.sampleCmdline;
     Reconciler.readDir := fun _ => Some ["11"; "abc"];
     Reconciler.processExists := fun _ => true |}.

(** runC reports 10, 13 and 11; pid 13 has gone from /proc. *)
Definition osRace : Reconciler.OS :=
  {| Reconciler.runcPs := fun _ => Reconciler.PsPids [10; 13; 11];
     Reconciler.readCmdline := Reconciler.sampleCmdline;
     Reconciler.readDir := fun _ => None;
     Reconciler.processExists := fun _ => true |}.

(** A peer that passes two descriptors in one control message. *)
Definition netTwoFds : Console.Net :=
  {| Console.accept :=
       Console.AcceptedUnix
         (Console.ReadMsg 9 24 (list_byte_of_string "/dev/ptmx" ++ Console.zeros 4087)
                          (Console.zeros 24));
     Console.ParseSocketControlMessage := fun _ => Some [Console.rightsMessage];
     Console.ParseUnixRights := fun _ => Some [7; 8] |}.

(** The pids [container.Wait] waits on before the init process: those of
    the entries created by the runtime, the init process left out. *)
Definition runtimeCreatedOthers (initPid : Z)
    (processes : list Reconciler.ContainerProcessState) : list Z :=
  Reconciler.Pid <$>
    List.filter (fun st => negb (Reconciler.Pid st =? initPid) &&
                           Reconciler.CreatedByRuntime st) processes.

(** The place in getMasterFromSocket where an error is built. *)
Definition errorSite (e : Console.error) : nat :=
  match e with
  | Console.ErrAccept => 0
  | Console.ErrNotUnixConn => 1
  | Console.ErrReadMsg => 2
  | Console.ErrInvalidByteCount _ _ => 3
  | Console.ErrParseControlMessage _ => 4
  | Console.ErrNoControlMessages => 5
  | Console.ErrManyControlMessages _ => 6
  | Console.ErrParseUnixRights _ => 7
  | Console.ErrNoFileDescriptors => 8
  | Console.ErrManyFileDescriptors _ => 9
  end%nat.

(** As [Supervisor.worldFine], but the init-pid file cannot be written. *)
Definition worldNoInitPid : Supervisor.World :=
  {| Supervisor.logPath := "/var/lib/gcsrunc/runc.log";
     Supervisor.combinedOutput := fun _ => ("", true);
     Supervisor.runCmd := fun _ => Supervisor.CmdExitedZero;
     Supervisor.mkdirAll := fun _ => true;
     Supervisor.tempSuffix := Some "123456789";
     Supervisor.readConfig := fun _ => Supervisor.ConfigTerminal false;
     Supervisor.setSubreaper := true;
     Supervisor.resolveUnixAddr := fun _ => true;
     Supervisor.listenUnix := fun _ => true;
     Supervisor.setupIOWithoutTerminal := fun _ _ _ => true;
     Supervisor.readPidFile := fun _ => Some 4711;
     Supervisor.rename := fun _ _ => true;
     Supervisor.writeFile := fun _ => false;
     Supervisor.removeAll := fun _ => true |}.

End Facts.

(** * Properties *)

(** ** strconv *)
Module StrconvProofs.
Import Strconv.

Example atoi_11 : Atoi "11" = Some 11. Proof. reflexivity. Qed.
Example atoi_abc : Atoi "abc" = None. Proof. reflexivity. Qed.
Example atoi_initpid : Atoi initPidFilename = None. Proof. reflexivity. Qed.
Example atoi_empty : Atoi "" = None. Proof. reflexivity. Qed.
Example atoi_sign_only : Atoi "-" = None. Proof. reflexivity. Qed.
Example atoi_signed : Atoi "-42" = Some (-42). Proof. reflexivity. Qed.
Example atoi_max : Atoi "9223372036854775807" = Some maxInt. Proof. reflexivity. Qed.
Example atoi_overflow : Atoi "9223372036854775808" = None. Proof. reflexivity. Qed.
Example itoa_0 : Itoa 0 = "0". Proof. reflexivity. Qed.
Example itoa_1234 : Itoa 1234 = "1234". Proof. reflexivity. Qed.
Example itoa_neg : Itoa (-90) = "-90". Proof. reflexivity. Qed.
Example itoa_max : Itoa maxInt = "9223372036854775807". Proof. reflexivity. Qed.
Example atoi_leading_zero : Atoi "011" = Some 11. Proof. reflexivity. Qed.
Example atoi_itoa_pid : Atoi (Itoa 4711) = Some 4711. Proof. reflexivity. Qed.

(** Itoa prints what Atoi reads back. *)

Lemma digit_cases d : 0 <= d <= 9 ->
  d = 0 \/ d = 1 \/ d = 2 \/ d = 3 \/ d = 4 \/ d = 5 \/ d = 6 \/ d = 7 \/ d = 8 \/ d = 9.
Proof. lia. Qed.

Lemma digitOf_digitChar d : 0 <= d <= 9 -> digitOf (digitChar d) = Some d.
Proof.
  intros Hd. destruct (digit_cases d Hd) as [->|[->|[->|[->|[->|[->|[->|[->|[->| ->]]]]]]]]];
    reflexivity.
Qed.

Lemma utoa_parse fuel : forall n acc,
  0 <= n < 10 ^ Z.of_nat (S fuel) ->
  exists k, 0 < k /\
    forall a, parseDigits (utoa fuel n acc) a = parseDigits acc (a * 10 ^ k + n).
Proof.
  induction fuel as [|fuel IH]; intros n acc Hn.
  - exists 1. split; [lia|]. intros a. simpl utoa. simpl parseDigits.
    change (10 ^ Z.of_nat 1) with 10 in Hn.
    rewrite Z.mod_small by lia. rewrite digitOf_digitChar by lia.
    now rewrite Z.pow_1_r.
  - simpl utoa. destruct (n <? 10) eqn:Hlt.
    + apply Z.ltb_lt in Hlt. exists 1. split; [lia|]. intros a. simpl parseDigits.
      rewrite Z.mod_small by lia. rewrite digitOf_digitChar by lia.
      now rewrite Z.pow_1_r.
    + apply Z.ltb_ge in Hlt.
      destruct (IH (n / 10) (String (digitChar (n mod 10)) acc)) as (k & Hk & Hparse).
      { split; [apply Z.div_pos; lia|].
        apply Z.div_lt_upper_bound; [lia|].
        rewrite Nat2Z.inj_succ, Z.pow_succ_r in Hn by lia. lia. }
      exists (k + 1). split; [lia|]. intros a. rewrite Hparse. simpl parseDigits.
      rewrite digitOf_digitChar by (pose proof (Z.mod_pos_bound n 10); lia).
      f_equal. rewrite Z.pow_add_r, Z.pow_1_r by lia.
      pose proof (Z.div_mod n 10). lia.
Qed.

Lemma utoa_head fuel : forall n acc,
  0 <= n -> exists d rest, 0 <= d <= 9 /\ utoa fuel n acc = String (digitChar d) rest.
Proof.
  induction fuel as [|fuel IH]; intros n acc Hn; simpl utoa.
  - exists (n mod 10), acc. pose proof (Z.mod_pos_bound n 10). split; [lia | reflexivity].
  - destruct (n <? 10).
    + exists (n mod 10), acc. pose proof (Z.mod_pos_bound n 10). split; [lia | reflexivity].
    + apply IH. apply Z.div_pos; lia.
Qed.

Lemma fuel_enough n : 0 <= n -> n < 10 ^ Z.of_nat (S (Z.to_nat (Z.log2 n))).
Proof.
  intros Hn. rewrite Nat2Z.inj_succ, Z2Nat.id by apply Z.log2_nonneg.
  destruct (Z.eq_dec n 0) as [->|Hz]; [reflexivity|].
  pose proof (Z.log2_spec n ltac:(lia)) as [_ Hup].
  eapply Z.lt_le_trans; [exact Hup|].
  apply Z.pow_le_mono_l. lia.
Qed.


Lemma Atoi_unsigned d rest :
  0 <= d <= 9 ->
  Atoi (String (digitChar d) rest) =
  match parseDigits (String (digitChar d) rest) 0 with
  | Some n => if (minInt <=? n) && (n <=? maxInt) then Some n else None
  | None => None
  end.
Proof.
  intros Hd. destruct (digit_cases d Hd) as [->|[->|[->|[->|[->|[->|[->|[->|[->| ->]]]]]]]]];
    reflexivity.
Qed.

Lemma Atoi_negative d rest :
  Atoi (String "-"%char (String d rest)) =
  match parseDigits (String d rest) 0 with
  | Some n => if (minInt <=? - n) && (- n <=? maxInt) then Some (- n) else None
  | None => None
  end.
Proof. reflexivity. Qed.

Lemma Atoi_Itoa z : minInt <= z <= maxInt -> Atoi (Itoa z) = Some z.
Proof.
  intros Hz. unfold Itoa. destruct (z <? 0) eqn:Hneg.
  - apply Z.ltb_lt in Hneg.
    destruct (utoa_head (Z.to_nat (Z.log2 (- z))) (- z) "") as (d & rest & Hd & Hhead); [lia|].
    destruct (utoa_parse (Z.to_nat (Z.log2 (- z))) (- z) "") as (k & _ & Hparse).
    { split; [lia | apply fuel_enough; lia]. }
    specialize (Hparse 0). simpl in Hparse. rewrite Hhead in *.
    rewrite Atoi_negative, Hparse.
    replace (- (0 * 10 ^ k + - z)) with z by lia.
    replace ((minInt <=? z) && (z <=? maxInt)) with true; [reflexivity|].
    symmetry. apply andb_true_intro. split; apply Z.leb_le; lia.
  - apply Z.ltb_ge in Hneg.
    destruct (utoa_head (Z.to_nat (Z.log2 z)) z "") as (d & rest & Hd & Hhead); [lia|].
    destruct (utoa_parse (Z.to_nat (Z.log2 z)) z "") as (k & _ & Hparse).
    { split; [lia | apply fuel_enough; lia]. }
    specialize (Hparse 0). simpl in Hparse. rewrite Hhead in *.
    rewrite Atoi_unsigned, Hparse by assumption.
    replace (0 * 10 ^ k + z) with z by lia.
    replace ((minInt <=? z) && (z <=? maxInt)) with true; [reflexivity|].
    symmetry. apply andb_true_intro. split; apply Z.leb_le; lia.
Qed.

End StrconvProofs.

(** ** The reconciler *)
Module ReconcilerProofs.
Import Strconv Reconciler StrconvProofs.

Implicit Types (os : OS) (pidMap : gmap Z ContainerProcessState).
Implicit Types (names : list string) (pids : list Z).

Lemma hasPidDir_cons name names pid :
  hasPidDir (name :: names) pid = isPidDirOf pid name || hasPidDir names pid.
Proof. reflexivity. Qed.

Lemma isPidDirOf_reserved pid name :
  String.eqb name initPidFilename = true -> isPidDirOf pid name = false.
Proof. intros H. unfold isPidDirOf. now rewrite H. Qed.

Lemma isPidDirOf_parsed pid name q :
  String.eqb name initPidFilename = false -> Atoi name = Some q ->
  isPidDirOf pid name = bool_decide (q = pid).
Proof.
  intros Hn Hq. unfold isPidDirOf. rewrite Hn, Hq. simpl.
  apply bool_decide_ext. split; congruence.
Qed.

Lemma hasPidDir_true names pid :
  hasPidDir names pid = true <->
  exists name, name ∈ names /\ name <> initPidFilename /\ Atoi name = Some pid.
Proof.
  unfold hasPidDir. rewrite existsb_exists. split.
  - intros (name & Hin & Hp). exists name. unfold isPidDirOf in Hp.
    apply andb_prop in Hp as [Hne Hat].
    apply negb_true_iff, String.eqb_neq in Hne.
    apply bool_decide_eq_true in Hat.
    split; [now apply list_elem_of_In | easy].
  - intros (name & Hin & Hne & Hat). exists name.
    split; [now apply list_elem_of_In |].
    unfold isPidDirOf. apply andb_true_intro. split.
    + now apply negb_true_iff, String.eqb_neq.
    + now apply bool_decide_eq_true.
Qed.

(** *** The seed loop *)

Lemma seedPidMap_ok os pids pidMap :
  (forall pid, pid ∈ pids -> is_Some (readCmdline os pid)) ->
  exists pidMap', seedPidMap os pids pidMap = Ok pidMap'.
Proof.
  revert pidMap. induction pids as [|pid rest IH]; intros pidMap Hcmd; simpl.
  - eauto.
  - destruct (Hcmd pid) as [data Hdata]; [left |].
    unfold getProcessCommand. rewrite Hdata.
    apply IH. intros q Hq. apply Hcmd. now right.
Qed.

Lemma seedPidMap_lookup os pids pidMap pidMap' :
  seedPidMap os pids pidMap = Ok pidMap' ->
  forall pid,
    (pid ∈ pids ->
     exists command, getProcessCommand os pid = Ok command /\
                     pidMap' !! pid = Some (mkState pid command false false)) /\
    (pid ∉ pids -> pidMap' !! pid = pidMap !! pid).
Proof.
  revert pidMap. induction pids as [|q rest IH]; intros pidMap Hseed pid; simpl in Hseed.
  - inversion Hseed; subst. split; [intros H; inversion H | easy].
  - destruct (getProcessCommand os q) as [command|e] eqn:Hcmd; [|discriminate].
    destruct (IH _ Hseed pid) as [Hin Hout].
    destruct (decide (pid ∈ rest)) as [Hrest|Hrest].
    + split; [intros _; now apply Hin | intros Hn; exfalso; apply Hn; now right].
    + rewrite (Hout Hrest). split.
      * intros Hpid. apply elem_of_cons in Hpid as [->|Hpid]; [|contradiction].
        exists command. split; [assumption | apply lookup_insert_eq].
      * intros Hn. apply lookup_insert_ne. intros ->. apply Hn. left.
Qed.

(** *** The scan of GetRunningProcesses *)

Lemma parsable_cons name names :
  parsable (name :: names) -> parsable names.
Proof. intros H n Hn. apply H. now right. Qed.

Lemma scanRunning_ok names pidMap :
  parsable names -> exists pidMap', scanRunning names pidMap = Ok pidMap'.
Proof.
  revert pidMap. induction names as [|name rest IH]; intros pidMap Hp; simpl.
  - eauto.
  - pose proof (parsable_cons _ _ Hp) as Hrest.
    destruct (String.eqb name initPidFilename) eqn:Hres; [now apply IH |].
    destruct (Hp name) as [pid Hpid]; [left | now apply String.eqb_neq |].
    rewrite Hpid. destruct (pidMap !! pid); now apply IH.
Qed.

Lemma scanRunning_lookup names pidMap pidMap' :
  scanRunning names pidMap = Ok pidMap' ->
  forall pid, pidMap' !! pid = markIf (hasPidDir names pid) <$> pidMap !! pid.
Proof.
  revert pidMap. induction names as [|name rest IH]; intros pidMap Hscan pid; simpl in Hscan.
  - inversion Hscan; subst. simpl. now destruct (pidMap' !! pid).
  - rewrite hasPidDir_cons.
    destruct (String.eqb name initPidFilename) eqn:Hres.
    { rewrite (isPidDirOf_reserved _ _ Hres). now apply IH. }
    destruct (Atoi name) as [q|] eqn:Hq; [|discriminate].
    rewrite (isPidDirOf_parsed pid _ _ Hres Hq).
    destruct (pidMap !! q) as [st0|] eqn:Hlook.
    + rewrite (IH _ Hscan pid). case_bool_decide as Heq.
      * subst q. rewrite lookup_alter_eq, Hlook. simpl.
        now destruct (hasPidDir rest pid).
      * now rewrite lookup_alter_ne.
    + rewrite (IH _ Hscan pid). case_bool_decide as Heq; [|reflexivity].
      subst q. now rewrite Hlook.
Qed.

(** *** The scan of GetAllProcesses *)

Lemma scanAll_ok os names pidMap :
  parsable names ->
  (forall name pid,
     name ∈ names -> name <> initPidFilename -> Atoi name = Some pid ->
     processExists os pid = true -> pidMap !! pid = None ->
     is_Some (readCmdline os pid)) ->
  exists pidMap', scanAll os names pidMap = Ok pidMap'.
Proof.
  revert pidMap. induction names as [|name rest IH]; intros pidMap Hp Hz; simpl.
  - eauto.
  - pose proof (parsable_cons _ _ Hp) as Hrest.
    destruct (String.eqb name initPidFilename) eqn:Hres.
    { apply IH; [assumption|]. intros n q Hn. apply Hz. now right. }
    destruct (Hp name) as [pid Hpid]; [left | now apply String.eqb_neq |].
    rewrite Hpid. destruct (processExists os pid) eqn:Hex.
    + destruct (pidMap !! pid) as [st0|] eqn:Hlook.
      * apply IH; [assumption|]. intros n q Hn Hne Hq Hexq Hnone.
        apply (Hz n q); try assumption; [now right|].
        destruct (decide (q = pid)) as [->|Hqp].
        -- rewrite lookup_alter_eq, Hlook in Hnone. discriminate.
        -- now rewrite lookup_alter_ne in Hnone.
      * destruct (Hz name pid) as [data Hdata]; try assumption;
          [left | now apply String.eqb_neq |].
        unfold getProcessCommand. rewrite Hdata.
        apply IH; [assumption|]. intros n q Hn Hne Hq Hexq Hnone.
        apply (Hz n q); try assumption; [now right|].
        destruct (decide (q = pid)) as [->|Hqp].
        -- rewrite lookup_insert_eq in Hnone. discriminate.
        -- now rewrite lookup_insert_ne in Hnone.
    + apply IH; [assumption|]. intros n q Hn. apply Hz. now right.
Qed.

Lemma scanAll_lookup os names pidMap pidMap' :
  scanAll os names pidMap = Ok pidMap' ->
  forall pid,
    match pidMap !! pid with
    | Some st => pidMap' !! pid = Some (markIf (onDisk os names pid) st)
    | None =>
        if onDisk os names pid
        then exists command, getProcessCommand os pid = Ok command /\
                             pidMap' !! pid = Some (mkState pid command true true)
        else pidMap' !! pid = None
    end.
Proof.
  revert pidMap. induction names as [|name rest IH]; intros pidMap Hscan pid; simpl in Hscan.
  - inversion Hscan; subst. unfold onDisk. simpl. now destruct (pidMap' !! pid).
  - unfold onDisk. rewrite hasPidDir_cons.
    destruct (String.eqb name initPidFilename) eqn:Hres.
    { rewrite (isPidDirOf_reserved _ _ Hres). now apply IH. }
    destruct (Atoi name) as [q|] eqn:Hq; [|discriminate].
    rewrite (isPidDirOf_parsed pid _ _ Hres Hq).
    destruct (processExists os q) eqn:Hex.
    + destruct (pidMap !! q) as [st0|] eqn:Hlook.
      * specialize (IH _ Hscan pid). unfold onDisk in IH.
        case_bool_decide as Heq.
        -- subst q. rewrite lookup_alter_eq, Hlook in IH. simpl in IH.
           rewrite Hex in *. rewrite Hlook. simpl. rewrite IH.
           now destruct (hasPidDir rest pid).
        -- now rewrite lookup_alter_ne in IH.
      * destruct (getProcessCommand os q) as [command|e] eqn:Hcmd; [|discriminate].
        specialize (IH _ Hscan pid). unfold onDisk in IH.
        case_bool_decide as Heq.
        -- subst q. rewrite lookup_insert_eq in IH. rewrite Hex in *.
           rewrite Hlook. simpl.
           exists command. split; [assumption|]. rewrite IH.
           now destruct (hasPidDir rest pid).
        -- now rewrite lookup_insert_ne in IH.
    + specialize (IH _ Hscan pid). unfold onDisk in IH.
      case_bool_decide as Heq; [|exact IH].
      subst q. rewrite Hex in *. rewrite andb_false_r in *.
      exact IH.
Qed.

(** *** From the map to the returned slice *)

Lemma elem_of_states pidMap st :
  st ∈ pidMapToProcessStates pidMap <-> exists pid, pidMap !! pid = Some st.
Proof.
  unfold pidMapToProcessStates. rewrite list_elem_of_fmap. split.
  - intros ([pid st'] & -> & Hin). exists pid. now apply elem_of_map_to_list.
  - intros (pid & Hlook). exists (pid, st). split; [reflexivity|].
    now apply elem_of_map_to_list.
Qed.

Lemma states_pids pidMap :
  keyedByPid pidMap -> Pid <$> pidMapToProcessStates pidMap = (map_to_list pidMap).*1.
Proof.
  intros Hkey. unfold pidMapToProcessStates. rewrite <- list_fmap_compose.
  apply list_fmap_ext. intros i [pid st] Hi. simpl.
  apply Hkey, elem_of_map_to_list, list_elem_of_lookup. eauto.
Qed.

Lemma states_NoDup pidMap :
  keyedByPid pidMap -> NoDup (Pid <$> pidMapToProcessStates pidMap).
Proof. intros Hkey. rewrite states_pids by assumption. apply NoDup_fst_map_to_list. Qed.

(** *** What a returned view holds *)

Lemma GetRunningProcesses_inv os id states :
  GetRunningProcesses os id = Ok states ->
  exists pids names pidMap,
    runcPs os id = PsPids pids /\
    readDir os (containerDirOf id) = Some names /\
    states = pidMapToProcessStates pidMap /\
    forall pid,
      (pid ∈ pids ->
       exists command, getProcessCommand os pid = Ok command /\
                       pidMap !! pid = Some (mkState pid command (hasPidDir names pid) false)) /\
      (pid ∉ pids -> pidMap !! pid = None).
Proof.
  unfold GetRunningProcesses, getRunningPids. intros H.
  destruct (runcPs os id) as [out|out|pids] eqn:Hps; try discriminate.
  destruct (seedPidMap os pids ∅) as [seed|e] eqn:Hseed; [|discriminate].
  destruct (readDir os (containerDirOf id)) as [names|] eqn:Hdir; [|discriminate].
  destruct (scanRunning names seed) as [pidMap|e] eqn:Hscan; [|discriminate].
  inversion H; subst. exists pids, names, pidMap. repeat split; try reflexivity.
  - intros Hin. destruct (seedPidMap_lookup _ _ _ _ Hseed pid) as [Hs _].
    destruct (Hs Hin) as (command & Hcmd & Hlook). exists command. split; [assumption|].
    rewrite (scanRunning_lookup _ _ _ Hscan pid), Hlook. simpl.
    now destruct (hasPidDir names pid).
  - intros Hout. destruct (seedPidMap_lookup _ _ _ _ Hseed pid) as [_ Hs].
    rewrite (scanRunning_lookup _ _ _ Hscan pid), (Hs Hout). now rewrite lookup_empty.
Qed.

Lemma GetAllProcesses_inv os id states :
  GetAllProcesses os id = Ok states ->
  exists pids names pidMap,
    runcPs os id = PsPids pids /\
    readDir os (containerDirOf id) = Some names /\
    states = pidMapToProcessStates pidMap /\
    forall pid,
      (pid ∈ pids ->
       exists command, getProcessCommand os pid = Ok command /\
                       pidMap !! pid = Some (mkState pid command (onDisk os names pid) false)) /\
      (pid ∉ pids -> onDisk os names pid = true ->
       exists command, getProcessCommand os pid = Ok command /\
                       pidMap !! pid = Some (mkState pid command true true)) /\
      (pid ∉ pids -> onDisk os names pid = false -> pidMap !! pid = None).
Proof.
  unfold GetAllProcesses, getRunningPids. intros H.
  destruct (runcPs os id) as [out|out|pids] eqn:Hps; try discriminate.
  destruct (seedPidMap os pids ∅) as [seed|e] eqn:Hseed; [|discriminate].
  destruct (readDir os (containerDirOf id)) as [names|] eqn:Hdir; [|discriminate].
  destruct (scanAll os names seed) as [pidMap|e] eqn:Hscan; [|discriminate].
  inversion H; subst. exists pids, names, pidMap. repeat split; try reflexivity.
  - intros Hin. destruct (seedPidMap_lookup _ _ _ _ Hseed pid) as [Hs _].
    destruct (Hs Hin) as (command & Hcmd & Hlook). exists command. split; [assumption|].
    pose proof (scanAll_lookup _ _ _ _ Hscan pid) as Hl. rewrite Hlook in Hl.
    rewrite Hl. now destruct (onDisk os names pid).
  - intros Hout Hon. destruct (seedPidMap_lookup _ _ _ _ Hseed pid) as [_ Hs].
    pose proof (scanAll_lookup _ _ _ _ Hscan pid) as Hl.
    rewrite (Hs Hout), lookup_empty, Hon in Hl. exact Hl.
  - intros Hout Hoff. destruct (seedPidMap_lookup _ _ _ _ Hseed pid) as [_ Hs].
    pose proof (scanAll_lookup _ _ _ _ Hscan pid) as Hl.
    rewrite (Hs Hout), lookup_empty, Hoff in Hl. exact Hl.
Qed.

Lemma GetRunningProcesses_ok os id pids names :
  runcPs os id = PsPids pids -> runningReadable os pids ->
  readDir os (containerDirOf id) = Some names -> parsable names ->
  exists states, GetRunningProcesses os id = Ok states.
Proof.
  intros Hps Hread Hdir Hparse. unfold GetRunningProcesses, getRunningPids.
  rewrite Hps. destruct (seedPidMap_ok os pids ∅ Hread) as [seed ->].
  rewrite Hdir. destruct (scanRunning_ok names seed Hparse) as [pidMap ->]. eauto.
Qed.

Lemma GetAllProcesses_ok os id pids names :
  runcPs os id = PsPids pids -> runningReadable os pids ->
  readDir os (containerDirOf id) = Some names -> parsable names ->
  zombiesReadable os names pids ->
  exists states, GetAllProcesses os id = Ok states.
Proof.
  intros Hps Hread Hdir Hparse Hz. unfold GetAllProcesses, getRunningPids.
  rewrite Hps. destruct (seedPidMap_ok os pids ∅ Hread) as [seed Hseed].
  rewrite Hseed, Hdir.
  destruct (scanAll_ok os names seed Hparse) as [pidMap ->]; [|eauto].
  intros name pid Hin Hne Hat Hex Hnone. apply (Hz name pid); try assumption.
  intros Hpid. destruct (seedPidMap_lookup _ _ _ _ Hseed pid) as [Hs _].
  destruct (Hs Hpid) as (c & _ & Hl). congruence.
Qed.

(** *** The running-processes view *)

(** C6. When runC reports the running pids, their command lines can be
    read, the container directory can be listed and every entry other than
    the init-pid file has a name that parses as an integer,
    GetRunningProcesses returns exactly one entry per reported pid; each
    entry has IsZombie false and the pid's command line, and has
    CreatedByRuntime true exactly when the listing holds a process
    directory whose name parses to that pid, which the directory named
    with the decimal form of the pid is. In particular, with runC
    reporting 10 and 11 and the directory holding "11" and the init-pid
    file, it returns two entries: pid 10 with CreatedByRuntime false and
    pid 11 with CreatedByRuntime true. *)
Theorem running_view_classification :
  (forall os id pids names,
     runcPs os id = PsPids pids -> runningReadable os pids ->
     readDir os (containerDirOf id) = Some names -> parsable names ->
     exists states,
       GetRunningProcesses os id = Ok states /\
       NoDup (Pid <$> states) /\
       (forall pid, pid ∈ Pid <$> states <-> pid ∈ pids) /\
       (forall st, st ∈ states ->
          IsZombie st = false /\
          getProcessCommand os (Pid st) = Ok (Command st) /\
          (CreatedByRuntime st = true <->
           exists name, name ∈ names /\ name <> initPidFilename /\
                        Atoi name = Some (Pid st)) /\
          (minInt <= Pid st <= maxInt -> Itoa (Pid st) ∈ names ->
           CreatedByRuntime st = true))) /\
  (forall os id c10 c11,
     runcPs os id = PsPids [10; 11] ->
     getProcessCommand os 10 = Ok c10 -> getProcessCommand os 11 = Ok c11 ->
     readDir os (containerDirOf id) = Some ["11"; initPidFilename] ->
     exists states,
       GetRunningProcesses os id = Ok states /\
       states ≡ₚ [mkState 10 c10 false false; mkState 11 c11 true false]).
Proof.
  split.
  - intros os id pids names Hps Hread Hdir Hparse.
    destruct (GetRunningProcesses_ok _ _ _ _ Hps Hread Hdir Hparse) as [states Hok].
    exists states. split; [assumption|].
    destruct (GetRunningProcesses_inv _ _ _ Hok)
      as (pids' & names' & pidMap & Hps' & Hdir' & -> & Hmap).
    assert (pids' = pids) by congruence. assert (names' = names) by congruence.
    subst pids' names'.
    assert (Hentry : forall pid st, pidMap !! pid = Some st ->
              pid ∈ pids /\ exists command, getProcessCommand os pid = Ok command /\
                st = mkState pid command (hasPidDir names pid) false).
    { intros pid st Hlook. destruct (Hmap pid) as [Hin Hout].
      destruct (decide (pid ∈ pids)) as [Hp|Hp].
      - split; [assumption|]. destruct (Hin Hp) as (c & Hc & Hl).
        exists c. split; [assumption | congruence].
      - rewrite (Hout Hp) in Hlook. discriminate. }
    assert (Hkey : keyedByPid pidMap).
    { intros pid st Hlook. destruct (Hentry _ _ Hlook) as (_ & c & _ & ->). reflexivity. }
    split; [now apply states_NoDup|]. split.
    + intros pid. rewrite list_elem_of_fmap. split.
      * intros (st & -> & Hst). apply elem_of_states in Hst as [q Hq].
        destruct (Hentry _ _ Hq) as (Hin & c & _ & ->). exact Hin.
      * intros Hin. destruct (Hmap pid) as [Hs _].
        destruct (Hs Hin) as (c & _ & Hl). eexists. split; [|apply elem_of_states; eauto].
        reflexivity.
    + intros st Hst. apply elem_of_states in Hst as [q Hq].
      destruct (Hentry _ _ Hq) as (Hin & c & Hc & ->). simpl.
      split; [reflexivity|]. split; [assumption|]. split; [apply hasPidDir_true|].
      intros Hrange Hname. apply hasPidDir_true. exists (Itoa q).
      pose proof (Atoi_Itoa q Hrange) as Hround.
      split; [assumption|]. split; [|assumption].
      intros Hres. rewrite Hres in Hround. discriminate Hround.
  - intros os id c10 c11 Hps H10 H11 Hdir.
    unfold GetRunningProcesses, getRunningPids. rewrite Hps. simpl seedPidMap.
    rewrite H10, H11, Hdir. eexists. split; [vm_compute; reflexivity|].
    apply perm_swap.
Qed.

Ltac each_member H tac :=
  repeat (apply elem_of_cons in H; destruct H as [->|H]; [tac|]);
  apply elem_of_nil in H; contradiction.

Ltac refute_member H :=
  repeat (apply elem_of_cons in H; destruct H as [H|H]; [discriminate H|]);
  apply elem_of_nil in H; contradiction.

Lemma running_view_classification_witness :
  exists states,
    GetRunningProcesses osTwoRunning "c1" = Ok states /\
    NoDup (Pid <$> states) /\
    (forall pid, pid ∈ Pid <$> states <-> pid ∈ [10; 11]) /\
    (forall st, st ∈ states ->
       IsZombie st = false /\
       getProcessCommand osTwoRunning (Pid st) = Ok (Command st) /\
       (CreatedByRuntime st = true <->
        exists name, name ∈ ["11"; "initpid"] /\ name <> initPidFilename /\
                     Atoi name = Some (Pid st)) /\
       (minInt <= Pid st <= maxInt -> Itoa (Pid st) ∈ ["11"; "initpid"] ->
        CreatedByRuntime st = true)).
Proof.
  apply (proj1 running_view_classification osTwoRunning "c1" [10; 11] ["11"; "initpid"]).
  - reflexivity.
  - intros pid Hin. each_member Hin ltac:(eexists; reflexivity).
  - reflexivity.
  - intros name Hin Hne. each_member Hin ltac:(first [eexists; reflexivity | now elim Hne]).
Defined.

(** *** The all-processes view *)

Lemma all_view_keyed os names pids (pidMap : gmap Z ContainerProcessState) :
  (forall pid,
      (pid ∈ pids ->
       exists command, getProcessCommand os pid = Ok command /\
                       pidMap !! pid = Some (mkState pid command (onDisk os names pid) false)) /\
      (pid ∉ pids -> onDisk os names pid = true ->
       exists command, getProcessCommand os pid = Ok command /\
                       pidMap !! pid = Some (mkState pid command true true)) /\
      (pid ∉ pids -> onDisk os names pid = false -> pidMap !! pid = None)) ->
  keyedByPid pidMap.
Proof.
  intros Hmap pid st Hlook. destruct (Hmap pid) as (Hin & Hzomb & Hnone).
  destruct (decide (pid ∈ pids)) as [Hp|Hp].
  - destruct (Hin Hp) as (c & _ & Hl). rewrite Hl in Hlook. now inversion Hlook.
  - destruct (onDisk os names pid) eqn:Hon.
    + destruct (Hzomb Hp eq_refl) as (c & _ & Hl). rewrite Hl in Hlook. now inversion Hlook.
    + rewrite (Hnone Hp eq_refl) in Hlook. discriminate.
Qed.

Lemma scanAll_cons os name rest pidMap :
  scanAll os (name :: rest) pidMap =
  if String.eqb name initPidFilename then scanAll os rest pidMap
  else match Atoi name with
       | None => Fail (ErrParseIntoPid name)
       | Some pid =>
           if processExists os pid then
             match pidMap !! pid with
             | Some _ => scanAll os rest (alter setCreatedByRuntime pid pidMap)
             | None =>
                 match getProcessCommand os pid with
                 | Fail e => Fail e
                 | Ok command =>
                     scanAll os rest (<[pid := mkState pid command true true]> pidMap)
                 end
             end
           else scanAll os rest pidMap
       end.
Proof. reflexivity. Qed.

Ltac scan_entry name pid :=
  rewrite scanAll_cons;
  change (String.eqb name initPidFilename) with false;
  change (Atoi name) with (Some pid); cbv beta iota.

(** C7. When both passes of GetAllProcesses can complete (runC reports the
    pids, the needed command lines can be read, the directory can be listed
    and its entries parse), every process directory whose pid runC does not
    report while the process still exists yields an entry for that pid with
    CreatedByRuntime true, IsZombie true and the pid's command line, and
    that is the only entry for the pid. In particular, with runC reporting
    10 and 11, directories "11" and "12" (with or without the init-pid
    file) and pid 12 still existing, the view holds pid 12 as a zombie
    created by the runtime next to the entries for 10 and 11. *)
Theorem all_view_zombies :
  (forall os id pids names,
     runcPs os id = PsPids pids -> runningReadable os pids ->
     readDir os (containerDirOf id) = Some names -> parsable names ->
     zombiesReadable os names pids ->
     exists states,
       GetAllProcesses os id = Ok states /\
       forall name pid,
         name ∈ names -> name <> initPidFilename -> Atoi name = Some pid ->
         pid ∉ pids -> processExists os pid = true ->
         exists command,
           getProcessCommand os pid = Ok command /\
           mkState pid command true true ∈ states /\
           (forall st, st ∈ states -> Pid st = pid -> st = mkState pid command true true)) /\
  (forall os id c10 c11 c12 names,
     runcPs os id = PsPids [10; 11] ->
     getProcessCommand os 10 = Ok c10 -> getProcessCommand os 11 = Ok c11 ->
     getProcessCommand os 12 = Ok c12 ->
     readDir os (containerDirOf id) = Some names ->
     names = ["11"; "12"] \/ names = ["11"; "12"; initPidFilename] ->
     processExists os 12 = true ->
     exists states,
       GetAllProcesses os id = Ok states /\
       states ≡ₚ [mkState 10 c10 false false;
                  mkState 11 c11 (processExists os 11) false;
                  mkState 12 c12 true true]).
Proof.
  split.
  - intros os id pids names Hps Hread Hdir Hparse Hz.
    destruct (GetAllProcesses_ok _ _ _ _ Hps Hread Hdir Hparse Hz) as [states Hok].
    exists states. split; [assumption|].
    destruct (GetAllProcesses_inv _ _ _ Hok)
      as (pids' & names' & pidMap & Hps' & Hdir' & -> & Hmap).
    assert (pids' = pids) by congruence. assert (names' = names) by congruence.
    subst pids' names'.
    pose proof (all_view_keyed _ _ _ _ Hmap) as Hkey.
    intros name pid Hin Hne Hat Hout Hex.
    assert (Hon : onDisk os names pid = true).
    { unfold onDisk. rewrite Hex, andb_true_r. apply hasPidDir_true. eauto. }
    destruct (Hmap pid) as (_ & Hzomb & _).
    destruct (Hzomb Hout Hon) as (c & Hc & Hl). exists c.
    split; [assumption|]. split; [apply elem_of_states; eauto|].
    intros st Hst Hpid. apply elem_of_states in Hst as [q Hq].
    rewrite (Hkey _ _ Hq) in Hpid. subst q. congruence.
  - intros os id c10 c11 c12 names Hps H10 H11 H12 Hdir Hnames H12ex.
    unfold GetAllProcesses, getRunningPids. rewrite Hps. simpl seedPidMap.
    rewrite H10, H11, Hdir.
    assert (Hscan : scanAll os names
               (<[11:=mkState 11 c11 false false]> (<[10:=mkState 10 c10 false false]> ∅)) =
             Ok (<[12:=mkState 12 c12 true true]>
                   (<[11:=mkState 11 c11 (processExists os 11) false]>
                      (<[10:=mkState 10 c10 false false]> ∅)))).
    { destruct (processExists os 11) eqn:H11ex; destruct Hnames as [-> | ->];
        scan_entry "11" 11; rewrite H11ex, ?lookup_insert_eq;
        scan_entry "12" 12; rewrite H12ex;
        rewrite ?lookup_alter_ne by done; rewrite !lookup_insert_ne by done;
        rewrite lookup_empty, H12; reflexivity. }
    rewrite Hscan. eexists. split; [reflexivity|].
    destruct (processExists os 11); vm_compute; apply perm_swap.
Qed.

Lemma all_view_zombies_witness :
  exists states,
    GetAllProcesses osWithZombie "c1" = Ok states /\
    exists command,
      getProcessCommand osWithZombie 12 = Ok command /\
      mkState 12 command true true ∈ states /\
      (forall st, st ∈ states -> Pid st = 12 -> st = mkState 12 command true true).
Proof.
  destruct (proj1 all_view_zombies osWithZombie "c1" [10; 11] ["11"; "12"; "initpid"])
    as (states & Hok & Hzombie).
  - reflexivity.
  - intros pid Hin. each_member Hin ltac:(eexists; reflexivity).
  - reflexivity.
  - intros name Hin Hne. each_member Hin ltac:(first [eexists; reflexivity | now elim Hne]).
  - intros name pid Hin Hne Hat Hex Hout.
    each_member Hin ltac:(first [now elim Hne | vm_compute in Hat; injection Hat as <-;
                                 eexists; reflexivity]).
  - exists states. split; [exact Hok|].
    apply (Hzombie "12" 12).
    + right; left.
    + discriminate.
    + reflexivity.
    + intros Hin. refute_member Hin.
    + reflexivity.
Defined.

(** *** Agreement of the two views *)

(** How the two entries of a pid held by both views are related: same
    Command, same IsZombie, and the all view's CreatedByRuntime is the
    running view's one conjoined with [processExists] of the pid. *)
Lemma common_entries_related os id running all r a :
  GetRunningProcesses os id = Ok running ->
  GetAllProcesses os id = Ok all ->
  r ∈ running -> a ∈ all -> Pid r = Pid a ->
  Command r = Command a /\
  IsZombie r = IsZombie a /\
  CreatedByRuntime a = CreatedByRuntime r && processExists os (Pid a) /\
  (processExists os (Pid a) = true -> sameClassification r a) /\
  ((forall pid, is_Some (readCmdline os pid) -> processExists os pid = true) ->
   sameClassification r a).
Proof.
  intros Hrun Hall Hr Ha Hpid.
  destruct (GetRunningProcesses_inv _ _ _ Hrun)
    as (pids & names & mapR & Hps & Hdir & -> & HmapR).
  destruct (GetAllProcesses_inv _ _ _ Hall)
    as (pids' & names' & mapA & Hps' & Hdir' & -> & HmapA).
  assert (pids' = pids) by congruence. assert (names' = names) by congruence.
  subst pids' names'.
  pose proof (all_view_keyed _ _ _ _ HmapA) as HkeyA.
  apply elem_of_states in Hr as [q Hq]. apply elem_of_states in Ha as [q' Hq'].
  destruct (HmapR q) as [HinR HoutR].
  destruct (decide (q ∈ pids)) as [Hin|Hout]; [|rewrite (HoutR Hout) in Hq; discriminate].
  destruct (HinR Hin) as (c & Hc & Hl). rewrite Hl in Hq. inversion Hq; subst r. clear Hq.
  simpl in Hpid. rewrite (HkeyA _ _ Hq') in Hpid. subst q'.
  destruct (HmapA q) as (HinA & _ & _).
  destruct (HinA Hin) as (c' & Hc' & Hl'). rewrite Hl' in Hq'. inversion Hq'; subst a.
  assert (c' = c) by congruence. subst c'. simpl. unfold onDisk.
  split; [reflexivity|]. split; [reflexivity|]. split; [reflexivity|].
  assert (Hlive : processExists os q = true -> sameClassification
            (mkState q c (hasPidDir names q) false)
            (mkState q c (hasPidDir names q && processExists os q) false)).
  { intros Hex. unfold sameClassification. simpl. now rewrite Hex, andb_true_r. }
  split; [exact Hlive|].
  intros Hcoherent. apply Hlive, Hcoherent.
  unfold getProcessCommand in Hc. destruct (readCmdline os q); [eauto | discriminate].
Qed.

Lemma running_view_pid_reported os id running pids r :
  GetRunningProcesses os id = Ok running -> runcPs os id = PsPids pids ->
  r ∈ running -> Pid r ∈ pids.
Proof.
  intros Hrun Hps Hr.
  destruct (GetRunningProcesses_inv _ _ _ Hrun)
    as (pids' & names & mapR & Hps' & _ & -> & HmapR).
  assert (pids' = pids) by congruence. subst pids'.
  apply elem_of_states in Hr as [q Hq]. destruct (HmapR q) as [Hin Hout].
  destruct (decide (q ∈ pids)) as [Hp|Hp]; [|rewrite (Hout Hp) in Hq; discriminate].
  destruct (Hin Hp) as (c & _ & Hl). rewrite Hl in Hq. now inversion Hq.
Qed.

(** C2. For every running-pid set, directory listing and state of /proc
    (existence and command lines answered by the same state, so that a
    process whose command line is read exists), every pid that appears in
    both the running-processes view and the all-processes view has the same
    Command, CreatedByRuntime and IsZombie in the two views. It is enough
    that [processExists] confirms the pids that runC reports. *)
Theorem views_agree_on_common_pids os id :
  (oneProcState os -> viewsAgree os id) /\
  (forall pids,
     runcPs os id = PsPids pids ->
     (forall pid, pid ∈ pids -> processExists os pid = true) ->
     viewsAgree os id).
Proof.
  split.
  - intros Hstate running all Hrun Hall r a Hr Ha Hpid.
    destruct (common_entries_related _ _ _ _ _ _ Hrun Hall Hr Ha Hpid)
      as (_ & _ & _ & _ & Hsame).
    now apply Hsame.
  - intros pids Hps Hlive running all Hrun Hall r a Hr Ha Hpid.
    destruct (common_entries_related _ _ _ _ _ _ Hrun Hall Hr Ha Hpid)
      as (_ & _ & _ & Hsame & _).
    apply Hsame, Hlive. rewrite <- Hpid.
    eapply running_view_pid_reported; eassumption.
Qed.

Lemma views_agree_on_common_pids_witness : viewsAgree osWithZombie "c1".
Proof.
  apply (proj1 (views_agree_on_common_pids osWithZombie "c1")).
  intros pid [data Hdata]. simpl in *. unfold sampleCmdline in Hdata.
  destruct (pid =? 10) eqn:H10; [apply Z.eqb_eq in H10; subst; reflexivity|].
  destruct (pid =? 11) eqn:H11; [apply Z.eqb_eq in H11; subst; reflexivity|].
  destruct (pid =? 12) eqn:H12; [apply Z.eqb_eq in H12; subst; reflexivity|].
  discriminate Hdata.
Defined.

Example views_agree_on_sample :
  exists running all,
    GetRunningProcesses osWithZombie "c1" = Ok running /\
    GetAllProcesses osWithZombie "c1" = Ok all /\
    mkState 11 ["ping"; "google.com"] true false ∈ running /\
    mkState 11 ["ping"; "google.com"] true false ∈ all /\
    mkState 12 [""] true true ∈ all.
Proof.
  do 2 eexists. split; [vm_compute; reflexivity|]. split; [vm_compute; reflexivity|].
  split; [|split]; apply list_elem_of_In; vm_compute; tauto.
Qed.

(** *** Entries that are not pids *)

Lemma isCorruptName_true name :
  isCorruptName name = true <-> name <> initPidFilename /\ Atoi name = None.
Proof.
  unfold isCorruptName. rewrite andb_true_iff, !negb_true_iff, String.eqb_neq.
  rewrite bool_decide_eq_false. split; intros [Hne Hat]; split; try assumption.
  - destruct (Atoi name); [exfalso; apply Hat; eauto | reflexivity].
  - rewrite Hat. intros [x Hx]. discriminate.
Qed.

Lemma find_corrupt names bad :
  bad ∈ names -> bad <> initPidFilename -> Atoi bad = None ->
  exists name, find isCorruptName names = Some name.
Proof.
  intros Hin Hne Hat. destruct (find isCorruptName names) as [name|] eqn:Hfind; [eauto|].
  apply list_elem_of_In in Hin.
  pose proof (find_none _ _ Hfind _ Hin) as Hnot.
  assert (isCorruptName bad = true) by now apply isCorruptName_true.
  congruence.
Qed.

Lemma scanRunning_corrupt names bad pidMap :
  find isCorruptName names = Some bad ->
  scanRunning names pidMap = Fail (ErrParseAsPid bad).
Proof.
  revert pidMap. induction names as [|name rest IH]; intros pidMap Hfind; simpl in *.
  - discriminate.
  - destruct (isCorruptName name) eqn:Hc.
    + inversion Hfind; subst. apply isCorruptName_true in Hc as [Hne Hat].
      apply String.eqb_neq in Hne. now rewrite Hne, Hat.
    + destruct (String.eqb name initPidFilename) eqn:Hres; [now apply IH|].
      destruct (Atoi name) as [pid|] eqn:Hat.
      * destruct (pidMap !! pid); now apply IH.
      * assert (isCorruptName name = true); [|congruence].
        apply isCorruptName_true. split; [now apply String.eqb_neq | assumption].
Qed.

Lemma scanAll_not_ok os names bad pidMap pidMap' :
  find isCorruptName names = Some bad -> scanAll os names pidMap <> Ok pidMap'.
Proof.
  revert pidMap. induction names as [|name rest IH]; intros pidMap Hfind; simpl in *.
  - discriminate.
  - destruct (isCorruptName name) eqn:Hc.
    + apply isCorruptName_true in Hc as [Hne Hat].
      apply String.eqb_neq in Hne. now rewrite Hne, Hat.
    + destruct (String.eqb name initPidFilename); [now apply IH|].
      destruct (Atoi name) as [pid|]; [|discriminate].
      destruct (processExists os pid); [|now apply IH].
      destruct (pidMap !! pid); [now apply IH|].
      destruct (getProcessCommand os pid); [now apply IH | discriminate].
Qed.

Lemma scanAll_corrupt os names bad pidMap :
  find isCorruptName names = Some bad ->
  (forall name pid,
     name ∈ names -> name <> initPidFilename -> Atoi name = Some pid ->
     processExists os pid = true -> pidMap !! pid = None ->
     is_Some (readCmdline os pid)) ->
  scanAll os names pidMap = Fail (ErrParseIntoPid bad).
Proof.
  revert pidMap. induction names as [|name rest IH]; intros pidMap Hfind Hz; simpl in *.
  - discriminate.
  - destruct (isCorruptName name) eqn:Hc.
    + inversion Hfind; subst. apply isCorruptName_true in Hc as [Hne Hat].
      apply String.eqb_neq in Hne. now rewrite Hne, Hat.
    + destruct (String.eqb name initPidFilename) eqn:Hres.
      { apply IH; [assumption|]. intros n q Hn. apply Hz. now right. }
      destruct (Atoi name) as [pid|] eqn:Hat.
      2:{ assert (isCorruptName name = true); [|congruence].
          apply isCorruptName_true. split; [now apply String.eqb_neq | assumption]. }
      destruct (processExists os pid) eqn:Hex.
      2:{ apply IH; [assumption|]. intros n q Hn. apply Hz. now right. }
      destruct (pidMap !! pid) as [st0|] eqn:Hlook.
      * apply IH; [assumption|]. intros n q Hn Hne Hq Hexq Hnone.
        apply (Hz n q); try assumption; [now right|].
        destruct (decide (q = pid)) as [->|Hqp].
        -- rewrite lookup_alter_eq, Hlook in Hnone. discriminate.
        -- now rewrite lookup_alter_ne in Hnone.
      * destruct (Hz name pid) as [data Hdata]; try assumption;
          [left | now apply String.eqb_neq |].
        unfold getProcessCommand. rewrite Hdata.
        apply IH; [assumption|]. intros n q Hn Hne Hq Hexq Hnone.
        apply (Hz n q); try assumption; [now right|].
        destruct (decide (q = pid)) as [->|Hqp].
        -- rewrite lookup_insert_eq in Hnone. discriminate.
        -- now rewrite lookup_insert_ne in Hnone.
Qed.

Lemma scanAll_corrupt_cases os names bad pidMap :
  find isCorruptName names = Some bad ->
  scanAll os names pidMap = Fail (ErrParseIntoPid bad) \/
  exists pid, scanAll os names pidMap = Fail (ErrReadCmdline pid) /\
              readCmdline os pid = None /\ processExists os pid = true.
Proof.
  revert pidMap. induction names as [|name rest IH]; intros pidMap Hfind; simpl in *.
  - discriminate.
  - destruct (isCorruptName name) eqn:Hc.
    + inversion Hfind; subst. apply isCorruptName_true in Hc as [Hne Hat].
      apply String.eqb_neq in Hne. rewrite Hne, Hat. now left.
    + destruct (String.eqb name initPidFilename) eqn:Hres; [now apply IH|].
      destruct (Atoi name) as [pid|] eqn:Hat.
      2:{ assert (isCorruptName name = true); [|congruence].
          apply isCorruptName_true. split; [now apply String.eqb_neq | assumption]. }
      destruct (processExists os pid) eqn:Hex; [|now apply IH].
      destruct (pidMap !! pid); [now apply IH|].
      unfold getProcessCommand. destruct (readCmdline os pid) eqn:Hread; [now apply IH|].
      right. exists pid. auto.
Qed.

(** C8. When the listing of the container directory holds an entry that is
    not the init-pid file and whose name does not parse as an integer,
    neither GetRunningProcesses nor GetAllProcesses returns a view: the
    entry is never skipped. Once the pids are known and their command lines
    read, GetRunningProcesses fails with the parse error for the first such
    entry. GetAllProcesses fails with the parse error for that entry too,
    unless reading the command line of a zombie it met before fails, which
    is then the error it returns; it does not when those command lines are
    readable. An entry named as the init-pid file is skipped by both scans,
    whatever the map and whatever follows. *)
Theorem corrupt_name_is_an_error :
  (forall os id names bad,
     readDir os (containerDirOf id) = Some names ->
     bad ∈ names -> bad <> initPidFilename -> Atoi bad = None ->
     (forall states, GetRunningProcesses os id <> Ok states) /\
     (forall states, GetAllProcesses os id <> Ok states) /\
     (forall pids,
        runcPs os id = PsPids pids -> runningReadable os pids ->
        exists name,
          find isCorruptName names = Some name /\
          GetRunningProcesses os id = Fail (ErrParseAsPid name) /\
          isBookkeepingCorruption (ErrParseAsPid name) = true /\
          (GetAllProcesses os id = Fail (ErrParseIntoPid name) \/
           exists pid, GetAllProcesses os id = Fail (ErrReadCmdline pid) /\
                       readCmdline os pid = None /\ processExists os pid = true) /\
          (zombiesReadable os names pids ->
           GetAllProcesses os id = Fail (ErrParseIntoPid name) /\
           isBookkeepingCorruption (ErrParseIntoPid name) = true))) /\
  (forall os rest pidMap,
     scanRunning (initPidFilename :: rest) pidMap = scanRunning rest pidMap /\
     scanAll os (initPidFilename :: rest) pidMap = scanAll os rest pidMap).
Proof.
  split.
  - intros os id names bad Hdir Hin Hne Hat.
    destruct (find_corrupt _ _ Hin Hne Hat) as [name Hfind].
    split; [|split].
    + intros states. unfold GetRunningProcesses.
      destruct (getRunningPids os id) as [pids|]; [|discriminate].
      destruct (seedPidMap os pids ∅); [|discriminate].
      rewrite Hdir, (scanRunning_corrupt _ _ _ Hfind). discriminate.
    + intros states. unfold GetAllProcesses.
      destruct (getRunningPids os id) as [pids|]; [|discriminate].
      destruct (seedPidMap os pids ∅) as [seed|]; [|discriminate].
      rewrite Hdir. destruct (scanAll os names seed) as [pidMap|] eqn:Hscan; [|discriminate].
      now apply scanAll_not_ok with (os := os) (pidMap := seed) (pidMap' := pidMap) in Hfind.
    + intros pids Hps Hread. exists name. split; [assumption|].
      destruct (seedPidMap_ok os pids ∅ Hread) as [seed Hseed].
      split; [|split; [reflexivity|split]].
      * unfold GetRunningProcesses, getRunningPids.
        now rewrite Hps, Hseed, Hdir, (scanRunning_corrupt _ _ _ Hfind).
      * unfold GetAllProcesses, getRunningPids. rewrite Hps, Hseed, Hdir.
        destruct (scanAll_corrupt_cases os _ _ seed Hfind) as [-> | (pid & -> & Hpid)];
          [now left | right; eauto].
      * intros Hz. split; [|reflexivity].
        unfold GetAllProcesses, getRunningPids. rewrite Hps, Hseed, Hdir.
        rewrite (scanAll_corrupt os _ _ seed Hfind); [reflexivity|].
        intros n q Hn Hnne Hq Hex Hnone. apply (Hz n q); try assumption.
        intros Hpid. destruct (seedPidMap_lookup _ _ _ _ Hseed q) as [Hs _].
        destruct (Hs Hpid) as (c & _ & Hl). congruence.
  - intros os rest pidMap. split; reflexivity.
Qed.

Lemma corrupt_name_is_an_error_witness :
  (forall states, GetRunningProcesses osCorrupt "c1" <> Ok states) /\
  (forall states, GetAllProcesses osCorrupt "c1" <> Ok states) /\
  exists name,
    find isCorruptName ["11"; "abc"; "initpid"] = Some name /\
    GetRunningProcesses osCorrupt "c1" = Fail (ErrParseAsPid name) /\
    GetAllProcesses osCorrupt "c1" = Fail (ErrParseIntoPid name).
Proof.
  destruct (proj1 corrupt_name_is_an_error osCorrupt "c1" ["11"; "abc"; "initpid"] "abc")
    as (Hrun & Hall & Hkind).
  - reflexivity.
  - right; left.
  - discriminate.
  - reflexivity.
  - split; [exact Hrun|]. split; [exact Hall|].
    destruct (Hkind [10; 11]) as (name & Hfind & Hr & _ & _ & Ha).
    + reflexivity.
    + intros pid Hin. each_member Hin ltac:(eexists; reflexivity).
    + exists name. split; [exact Hfind|]. split; [exact Hr|].
      apply Ha. intros entry pid Hin Hne Hat Hex Hout.
      each_member Hin ltac:(first [now elim Hne | vm_compute in Hat; discriminate Hat
                                   | vm_compute in Hat; injection Hat as <-;
                                     eexists; reflexivity]).
Defined.

Example corrupt_views :
  GetRunningProcesses osCorrupt "c1" = Fail (ErrParseAsPid "abc") /\
  GetAllProcesses osCorrupt "c1" = Fail (ErrParseIntoPid "abc").
Proof. split; vm_compute; reflexivity. Qed.

End ReconcilerProofs.

(** ** The supervisor's directories *)
Module SupervisorProofs.
Import Strconv Supervisor.

Lemma isUnder_self dir : isUnder dir dir = true.
Proof. unfold isUnder. now rewrite String.eqb_refl. Qed.

Lemma elem_of_removeTree dir path (fs : FS) :
  path ∈ removeTree dir fs <-> path ∈ fs /\ isUnder dir path = false.
Proof. unfold removeTree. rewrite elem_of_filter. tauto. Qed.

Lemma removeTree_gone dir (fs : FS) : dir ∉ removeTree dir fs.
Proof.
  rewrite elem_of_removeTree. intros [_ H]. rewrite isUnder_self in H. discriminate.
Qed.

Example delete_when_runc_fails :
  Delete worldRuncFails sampleContainer sampleFS =
  (Fail (ErrRuncDelete "container is not stopped"), sampleFS).
Proof. reflexivity. Qed.

Example delete_when_runc_succeeds :
  Delete worldFine sampleContainer sampleFS = (Ok tt, ∅).
Proof. vm_compute. reflexivity. Qed.

(** C1, as the claim states it, fails: when [runc delete] exits with a
    failure, Delete returns at once and the container's directory is still
    there. *)
Lemma delete_keeps_dir_when_runc_fails :
  ~ deleteRemovesDir worldRuncFails sampleContainer sampleFS.
Proof.
  unfold deleteRemovesDir. rewrite delete_when_runc_fails. simpl.
  intros Hout. apply Hout. unfold sampleFS. vm_compute. reflexivity.
Qed.

(** C1, amended. When [runc delete] fails, container Delete returns that
    failure with runC's output and leaves every directory as it was. When
    it succeeds and the removal succeeds, Delete returns no error and what
    is left is what was there outside the container's directory; the
    directory itself is gone. Process Delete does not depend on any runC
    invocation: when the removal succeeds it returns no error and the
    process's directory is gone. *)
Theorem delete_cleans_up_after_runc_succeeds :
  (forall w c fs out,
     combinedOutput w ["--log"; logPath w; "delete"; id (p c)] = (out, false) ->
     Delete w c fs = (Fail (ErrRuncDelete out), fs)) /\
  (forall w c fs out,
     combinedOutput w ["--log"; logPath w; "delete"; id (p c)] = (out, true) ->
     removeAll w (getContainerDir (id (p c))) = true ->
     Delete w c fs = cleanupContainer w (id (p c)) fs /\
     (Delete w c fs).1 = Ok tt /\
     (getContainerDir (id (p c)) ∉ (Delete w c fs).2) /\
     (forall path, path ∈ (Delete w c fs).2 <->
                   path ∈ fs /\ isUnder (getContainerDir (id (p c))) path = false)) /\
  (forall w pr fs,
     removeAll w (getProcessDir (id pr) (pid pr)) = true ->
     (processDelete w pr fs).1 = Ok tt /\
     (getProcessDir (id pr) (pid pr) ∉ (processDelete w pr fs).2) /\
     (forall w', removeAll w' = removeAll w -> processDelete w' pr fs = processDelete w pr fs)).
Proof.
  split; [|split].
  - intros w c fs out Hrun. unfold Delete. now rewrite Hrun.
  - intros w c fs out Hrun Hrm. unfold Delete. rewrite Hrun.
    split; [reflexivity|].
    unfold cleanupContainer, bind, check, modify. rewrite Hrm. simpl.
    split; [reflexivity|]. split; [apply removeTree_gone|].
    intros path. apply elem_of_removeTree.
  - intros w pr fs Hrm. unfold processDelete, cleanupProcess, bind, check, modify.
    rewrite Hrm. simpl. split; [reflexivity|]. split; [apply removeTree_gone|].
    intros w' Hsame. now rewrite Hsame, Hrm.
Qed.

Lemma delete_cleans_up_after_runc_succeeds_witness :
  Delete worldFine sampleContainer sampleFS =
    cleanupContainer worldFine (id (p sampleContainer)) sampleFS /\
  (Delete worldFine sampleContainer sampleFS).1 = Ok tt /\
  (getContainerDir (id (p sampleContainer)) ∉ (Delete worldFine sampleContainer sampleFS).2) /\
  (forall path, path ∈ (Delete worldFine sampleContainer sampleFS).2 <->
                path ∈ sampleFS /\
                isUnder (getContainerDir (id (p sampleContainer))) path = false).
Proof.
  apply (proj1 (proj2 delete_cleans_up_after_runc_succeeds)
           worldFine sampleContainer sampleFS "");
    reflexivity.
Defined.

(** *** A failed create *)

Example create_when_all_succeeds :
  CreateContainer worldFine "c1" "/bundle" noStdio ∅ =
  (Ok sampleContainer, sampleFS).
Proof. vm_compute. reflexivity. Qed.

Example create_when_runc_fails :
  CreateContainer worldRuncFails "c1" "/bundle" noStdio ∅ =
  (Fail (ErrRuncCallWait "c1"),
   {[ "/var/lib/gcsrunc/c1"; "/var/lib/gcsrunc/c1123456789" ]}).
Proof. vm_compute. reflexivity. Qed.

(** C3, as the claim states it, fails: when the runC call fails,
    CreateContainer returns the error and both the container's directory
    and the temporary process directory are still there. *)
Lemma create_leaves_dirs_when_runc_fails :
  ~ createLeavesNothing worldRuncFails "c1" "/bundle" noStdio ∅.
Proof.
  intros Hclean.
  destruct (Hclean _ _ create_when_runc_fails (or_intror eq_refl)) as [Hdir _].
  apply Hdir. vm_compute. reflexivity.
Qed.

(** Case analysis on what the system answers, one call at a time. *)
Ltac next_answer H :=
  match type of H with
  | context [if ?b then _ else _] =>
      lazymatch type of b with bool => destruct b eqn:? end
  | context [tempSuffix ?w] => destruct (tempSuffix w) eqn:?
  | context [readConfig ?w ?path] => destruct (readConfig w path) eqn:?
  | context [runCmd ?w ?args] => destruct (runCmd w args) eqn:?
  | context [readPidFile ?w ?path] => destruct (readPidFile w path) eqn:?
  end.

Ltac unfold_create :=
  unfold CreateContainer, runCreateCommand, makeContainerDir, TempDir, hasTerminal,
    startProcess, createConsoleSocket, bind, check, modify, ret, fail.

(** C3, amended. When CreateContainer fails because the runC call could
    not be started or exited with a failure, it returns that error and
    removes nothing: the directories afterwards are those from before the
    call together with the container's directory and the temporary process
    directory. No failing path of CreateContainer that ends before the
    rename of the process directory removes a directory. *)
Theorem create_failure_keeps_dirs w id bundlePath stdioOptions (fs fs' : FS) e :
  CreateContainer w id bundlePath stdioOptions fs = (Fail e, fs') ->
  (e <> ErrWriteInitPid -> fs ⊆ fs') /\
  (e = ErrRuncCallStart id \/ e = ErrRuncCallWait id ->
   exists sfx,
     tempSuffix w = Some sfx /\
     fs' = {[ Join containerFilesDir (id ++ sfx) ]} ∪ ({[ getContainerDir id ]} ∪ fs)).
Proof.
  unfold_create. intros H.
  repeat (next_answer H; cbn [fst snd] in H; cbv beta iota in H);
    inversion H; subst; clear H;
    (split; [try set_solver | intros [He|He]; try discriminate He; eauto]).
Qed.

Lemma create_failure_keeps_dirs_witness :
  (∅ ⊆ ({[ "/var/lib/gcsrunc/c1"; "/var/lib/gcsrunc/c1123456789" ]} : FS)) /\
  exists sfx,
    tempSuffix worldRuncFails = Some sfx /\
    ({[ "/var/lib/gcsrunc/c1"; "/var/lib/gcsrunc/c1123456789" ]} : FS) =
    {[ Join containerFilesDir ("c1" ++ sfx) ]} ∪ ({[ getContainerDir "c1" ]} ∪ ∅).
Proof.
  destruct (create_failure_keeps_dirs worldRuncFails "c1" "/bundle" noStdio ∅
              {[ "/var/lib/gcsrunc/c1"; "/var/lib/gcsrunc/c1123456789" ]}
              (ErrRuncCallWait "c1")) as [Hkept Hdirs].
  - vm_compute. reflexivity.
  - split; [apply Hkept; discriminate | apply Hdirs; right; reflexivity].
Defined.

(** A failed start, by contrast, does remove the container's directory. *)
Lemma start_failure_cleans_up w c (fs : FS) out :
  combinedOutput w ["--log"; logPath w; "start"; id (p c)] = (out, false) ->
  removeAll w (getContainerDir (id (p c))) = true ->
  (Start w c fs).1 = Fail (ErrRuncStart out) /\
  getContainerDir (id (p c)) ∉ (Start w c fs).2.
Proof.
  intros Hrun Hrm. unfold Start. rewrite Hrun.
  unfold cleanupContainer, bind, check, modify. rewrite Hrm. simpl.
  split; [reflexivity | apply removeTree_gone].
Qed.

End SupervisorProofs.

(** ** The console socket channel *)
Module ConsoleProofs.
Import Console.

Example oobSpace_value : oobSpace = 24.
Proof. reflexivity. Qed.

Example master_from_good_peer :
  getMasterFromSocket netGood =
  (Ok (NewFile 7 "/dev/ptmx"),
   [EvAccept; EvReadMsgUnix; EvParseSocketControlMessage (zeros 24);
    EvParseUnixRights rightsMessage; EvNewFile 7 "/dev/ptmx"; EvCloseConn]).
Proof. vm_compute. reflexivity. Qed.

Example master_from_oversized_peer :
  getMasterFromSocket netOversized =
  (Fail (ErrInvalidByteCount 4096 24), [EvAccept; EvReadMsgUnix; EvCloseConn]).
Proof. vm_compute. reflexivity. Qed.

Example master_without_ancillary :
  getMasterFromSocket netNoAncillary =
  (Fail (ErrInvalidByteCount 9 0), [EvAccept; EvReadMsgUnix; EvCloseConn]).
Proof. vm_compute. reflexivity. Qed.

(** C5, as the claim states it, fails: a name that fills the buffer and a
    missing ancillary buffer are reported by the same error, built at the
    same place with the same text. *)
Lemma oversized_name_shares_its_kind : ~ oversizedNameIsItsOwnKind.
Proof.
  intros Hkind.
  apply (Hkind netOversized netNoAncillary 4096 24 (zeros 4096) (zeros 24)
           9 0 (list_byte_of_string "/dev/ptmx" ++ zeros 4087)%list (zeros 24)
           (ErrInvalidByteCount 4096 24) (ErrInvalidByteCount 9 0));
    first [reflexivity | vm_compute; congruence].
Qed.

Lemma readMaster_invalid_count net n oobn name oob :
  (n >=? maxNameLen) || negb (oobn =? oobSpace) = true ->
  readMaster net (ReadMsg n oobn name oob) =
  (Fail (ErrInvalidByteCount n oobn), [EvReadMsgUnix]).
Proof. intros H. unfold readMaster. now rewrite H. Qed.

(** C5, amended. When the reported name length is 4096 or more,
    getMasterFromSocket fails with the invalid-byte-count error, which
    carries both counts; it has called neither parser and has closed the
    connection. An ancillary buffer of the wrong size fails with the same
    error. The text of that error differs from the text of every other
    error of the function. *)
Theorem oversized_name_is_rejected_unparsed :
  (forall net n oobn name oob,
     accept net = AcceptedUnix (ReadMsg n oobn name oob) ->
     n >= maxNameLen ->
     getMasterFromSocket net =
       (Fail (ErrInvalidByteCount n oobn), [EvAccept; EvReadMsgUnix; EvCloseConn]) /\
     existsb isParseEvent (getMasterFromSocket net).2 = false) /\
  (forall net n oobn name oob,
     accept net = AcceptedUnix (ReadMsg n oobn name oob) ->
     oobn <> oobSpace ->
     getMasterFromSocket net =
       (Fail (ErrInvalidByteCount n oobn), [EvAccept; EvReadMsgUnix; EvCloseConn])) /\
  (forall e n oobn,
     errorText e = errorText (ErrInvalidByteCount n oobn) ->
     exists n' oobn', e = ErrInvalidByteCount n' oobn').
Proof.
  split; [|split].
  - intros net n oobn name oob Hacc Hn.
    assert (Hget : getMasterFromSocket net =
              (Fail (ErrInvalidByteCount n oobn), [EvAccept; EvReadMsgUnix; EvCloseConn])).
    { unfold getMasterFromSocket. rewrite Hacc, readMaster_invalid_count; [reflexivity|].
      apply orb_true_intro. left. apply Z.geb_le. lia. }
    split; [assumption|]. now rewrite Hget.
  - intros net n oobn name oob Hacc Hoob.
    unfold getMasterFromSocket. rewrite Hacc, readMaster_invalid_count; [reflexivity|].
    apply orb_true_intro. right. apply negb_true_iff. now apply Z.eqb_neq.
  - intros e n oobn Htext. destruct e; try (vm_compute in Htext; discriminate Htext).
    eauto.
Qed.

Lemma oversized_name_is_rejected_unparsed_witness :
  getMasterFromSocket netOversized =
    (Fail (ErrInvalidByteCount 4096 24), [EvAccept; EvReadMsgUnix; EvCloseConn]) /\
  existsb isParseEvent (getMasterFromSocket netOversized).2 = false.
Proof.
  apply (proj1 oversized_name_is_rejected_unparsed netOversized 4096 24
           (zeros 4096) (zeros 24)).
  - reflexivity.
  - unfold maxNameLen. lia.
Defined.

End ConsoleProofs.

(** ** The pty allocator *)
Module PtyProofs.
Import Strconv Pty.

Example console_allocated :
  NewConsole kernelFine sampleFds = ((Some 5, "/dev/pts/3", None), {[ 5 ]} ∪ sampleFds).
Proof. reflexivity. Qed.

Example console_chown_fails :
  NewConsole kernelChownFails sampleFds = ((None, "", Some ErrChown), {[ 5 ]} ∪ sampleFds).
Proof. reflexivity. Qed.

(** C4, as the claim states it, fails: when the ownership of the slave
    cannot be changed, NewConsole returns a nil master while the
    descriptor it opened stays open. *)
Lemma master_leaks_when_chown_fails : ~ failureDoesNotLeak kernelChownFails sampleFds.
Proof.
  intros Hsafe. apply (Hsafe 5).
  - reflexivity.
  - vm_compute. discriminate.
  - rewrite console_chown_fails. discriminate.
  - rewrite console_chown_fails. split; [|discriminate].
    simpl. apply elem_of_union_l, elem_of_singleton. reflexivity.
Qed.

(** C4, amended. Whenever NewConsole returns an error after it has opened
    the master (ptsname, unlockpt, chmod or chown failed), it returns a nil
    master and an empty path with the error; the master is neither closed
    nor handed to the caller: it stays among the open descriptors. *)
Theorem failure_after_open_keeps_master_open (k : Kernel) (fds : Fds) master e :
  openPtmx k = Some master ->
  (NewConsole k fds).1.2 = Some e ->
  NewConsole k fds = ((None, "", Some e), {[ master ]} ∪ fds) /\
  master ∈ (NewConsole k fds).2 /\
  (e = ErrPtsname \/ e = ErrUnlockpt \/ e = ErrChmod \/ e = ErrChown).
Proof.
  intros Hopen. unfold NewConsole, ptsname, unlockpt. rewrite Hopen.
  destruct (ioctlTIOCGPTN k master) as [n|];
    [destruct (ioctlTIOCSPTLCK k master);
     [destruct (chmod k ("/dev/pts/" ++ Itoa n));
      [destruct (chown k ("/dev/pts/" ++ Itoa n))|]|]|];
    simpl; intros He; inversion He; subst;
    (split; [reflexivity|]); (split; [set_solver|]); tauto.
Qed.

Lemma failure_after_open_keeps_master_open_witness :
  NewConsole kernelChownFails sampleFds = ((None, "", Some ErrChown), {[ 5 ]} ∪ sampleFds) /\
  5 ∈ (NewConsole kernelChownFails sampleFds).2 /\
  (ErrChown = ErrPtsname \/ ErrChown = ErrUnlockpt \/ ErrChown = ErrChmod \/
   ErrChown = ErrChown).
Proof.
  apply (failure_after_open_keeps_master_open kernelChownFails sampleFds 5 ErrChown);
    reflexivity.
Defined.

End PtyProofs.

(** ** The stdio handle set *)
Module StdioProofs.
Import Stdio.

Lemma closeMember_spec closer member closed :
  closeMember closer member closed =
  (None, (closed ++ omap id [member])%list).
Proof.
  destruct member as [s|]; simpl; [reflexivity|]. now rewrite app_nil_r.
Qed.

Lemma Close_spec closer ps closed :
  Close closer (Some ps) closed =
  (None, Some (mkPipes None None None None), (closed ++ members (Some ps))%list).
Proof.
  unfold Close. rewrite !closeMember_spec. f_equal.
  destruct ps as [[i|] [o|] [e|] [t|]]; simpl; rewrite <- ?app_assoc; simpl;
    rewrite ?app_nil_r; reflexivity.
Qed.

Example close_twice_strict :
  Close strictCloser (Some pipesNoTerminal) [] =
    (None, Some (mkPipes None None None None), [1; 2; 3]%nat) /\
  Close strictCloser (Some (mkPipes None None None None)) [1; 2; 3]%nat =
    (None, Some (mkPipes None None None None), [1; 2; 3]%nat).
Proof. split; reflexivity. Qed.

(** C9. The first Close calls the Close of every non-nil member once, in
    the order In, Out, Err, Pty, and leaves every member nil; a second
    Close on the result calls nothing and changes nothing. Over the two
    calls every stream is closed as many times as there were members
    holding it: exactly once when the members hold different streams. *)
Theorem close_is_idempotent closer (pipes : option StdioPipes) (closed : list Stream) :
  let first := Close closer pipes closed in
  let second := Close closer first.1.2 first.2 in
  first.2 = (closed ++ members pipes)%list /\
  members first.1.2 = [] /\
  second = (None, first.1.2, first.2) /\
  (forall s, count_occ Nat.eq_dec second.2 s =
             (count_occ Nat.eq_dec closed s + count_occ Nat.eq_dec (members pipes) s)%nat) /\
  (NoDup (members pipes) ->
   forall s, s ∈ members pipes ->
             count_occ Nat.eq_dec second.2 s = S (count_occ Nat.eq_dec closed s)).
Proof.
  assert (Hcount : forall s,
            count_occ Nat.eq_dec (closed ++ members pipes) s =
            (count_occ Nat.eq_dec closed s + count_occ Nat.eq_dec (members pipes) s)%nat).
  { intros s. apply count_occ_app. }
  assert (Honce : NoDup (members pipes) ->
            forall s, s ∈ members pipes ->
            count_occ Nat.eq_dec (closed ++ members pipes) s =
            S (count_occ Nat.eq_dec closed s)).
  { intros Hnodup s Hin. rewrite Hcount.
    apply list_elem_of_In in Hin. apply NoDup_ListNoDup in Hnodup.
    rewrite (proj1 (NoDup_count_occ' Nat.eq_dec (members pipes)) Hnodup s Hin). lia. }
  destruct pipes as [ps|]; cbv zeta.
  - rewrite Close_spec. cbn [fst snd]. rewrite Close_spec. cbn [fst snd].
    replace (members (Some (mkPipes None None None None))) with (@nil Stream) by reflexivity.
    rewrite app_nil_r. repeat split; assumption.
  - cbn [Close fst snd]. simpl members in *. rewrite app_nil_r in *.
    repeat split; assumption.
Qed.

Lemma close_is_idempotent_witness :
  count_occ Nat.eq_dec
    (Close strictCloser (Close strictCloser (Some pipesNoTerminal) []).1.2
                        (Close strictCloser (Some pipesNoTerminal) []).2).2 2%nat =
  1%nat.
Proof.
  destruct (close_is_idempotent strictCloser (Some pipesNoTerminal) [])
    as (_ & _ & _ & _ & Honce).
  apply Honce.
  - apply (bool_decide_unpack (NoDup (members (Some pipesNoTerminal)))).
    vm_compute. exact I.
  - right; left.
Defined.

(** C10. Close returns a nil error for every receiver, every closer and
    every log: what the members' Close calls return has no effect on
    anything Close returns. On the nil receiver it returns nil and does
    nothing. *)
Theorem close_returns_nil :
  (forall closer pipes closed, (Close closer pipes closed).1.1 = None) /\
  (forall closer closer' pipes closed,
     Close closer pipes closed = Close closer' pipes closed) /\
  (forall closer closed, Close closer None closed = (None, None, closed)).
Proof.
  split; [|split].
  - intros closer [ps|] closed; [now rewrite Close_spec | reflexivity].
  - intros closer closer' [ps|] closed; [now rewrite !Close_spec | reflexivity].
  - reflexivity.
Qed.

End StdioProofs.

(** ** More on the reconciler *)
Module ReconcilerMore.
Import Strconv Reconciler StrconvProofs ReconcilerProofs Facts.

(** *** Command lines *)

Lemma trimSuffixNul_app a s :
  s <> EmptyString -> trimSuffixNul (a ++ s) = a ++ trimSuffixNul s.
Proof.
  intros Hs. induction a as [|c a IH]; [reflexivity|].
  simpl. rewrite IH. destruct (a ++ s) eqn:Happ; [|reflexivity].
  destruct a; simpl in Happ; [contradiction | discriminate].
Qed.

Lemma trimSuffixNul_cmdlineFile args :
  args <> [] -> trimSuffixNul (cmdlineFile args) = joinNul args.
Proof.
  induction args as [|arg rest IH]; [congruence|]. intros _.
  destruct rest as [|arg' rest'].
  - simpl. clear IH. induction arg as [|c arg IHa]; [reflexivity|].
    simpl. rewrite IHa. destruct (arg ++ String nul "") eqn:Happ; [|reflexivity].
    destruct arg; discriminate.
  - change (cmdlineFile (arg :: arg' :: rest'))
      with (arg ++ String nul (cmdlineFile (arg' :: rest'))).
    rewrite trimSuffixNul_app by discriminate.
    change (joinNul (arg :: arg' :: rest'))
      with (arg ++ String nul (joinNul (arg' :: rest'))).
    f_equal. rewrite <- IH by discriminate.
    change (trimSuffixNul (String nul (cmdlineFile (arg' :: rest'))))
      with (match cmdlineFile (arg' :: rest') with
            | EmptyString => if Ascii.eqb nul nul then EmptyString
                             else String nul EmptyString
            | _ => String nul (trimSuffixNul (cmdlineFile (arg' :: rest')))
            end).
    destruct (cmdlineFile (arg' :: rest')) eqn:Hfile; [|reflexivity].
    simpl in Hfile. destruct arg'; discriminate.
Qed.

Lemma splitNul_not_nil s : splitNul s <> [].
Proof.
  destruct s as [|c s]; simpl; [discriminate|].
  destruct (Ascii.eqb c nul); [discriminate|].
  destruct (splitNul s); discriminate.
Qed.

Lemma splitNul_nulFree a : nulFree a = true -> splitNul a = [a].
Proof.
  induction a as [|c a IH]; [reflexivity|]. simpl.
  intros H. apply andb_prop in H as [Hc Ha]. apply negb_true_iff in Hc.
  now rewrite Hc, (IH Ha).
Qed.

Lemma splitNul_app a s :
  nulFree a = true -> splitNul (a ++ String nul s) = a :: splitNul s.
Proof.
  induction a as [|c a IH]; intros H.
  - reflexivity.
  - simpl in H. apply andb_prop in H as [Hc Ha]. apply negb_true_iff in Hc.
    simpl. now rewrite Hc, (IH Ha).
Qed.

Lemma splitNul_joinNul args :
  args <> [] -> Forall (fun arg => nulFree arg = true) args ->
  splitNul (joinNul args) = args.
Proof.
  induction args as [|arg rest IH]; [congruence|]. intros _ Hfree.
  inversion Hfree as [|? ? Harg Hrest]; subst.
  destruct rest as [|arg' rest'].
  - now apply splitNul_nulFree.
  - change (joinNul (arg :: arg' :: rest'))
      with (arg ++ String nul (joinNul (arg' :: rest'))).
    rewrite splitNul_app by assumption. f_equal. now apply IH.
Qed.

Lemma joinNul_splitNul s : joinNul (splitNul s) = s.
Proof.
  induction s as [|c s IH]; [reflexivity|]. simpl.
  destruct (Ascii.eqb c nul) eqn:Hc.
  - apply Ascii.eqb_eq in Hc. subst c.
    pose proof (splitNul_not_nil s) as Hne.
    destruct (splitNul s) as [|piece pieces] eqn:Hsplit; [congruence|].
    change (joinNul ("" :: piece :: pieces))
      with ("" ++ String nul (joinNul (piece :: pieces))).
    now rewrite IH.
  - pose proof (splitNul_not_nil s) as Hne.
    destruct (splitNul s) as [|piece pieces] eqn:Hsplit; [congruence|].
    destruct pieces as [|piece' pieces'].
    + simpl in *. now rewrite IH.
    + change (joinNul (String c piece :: piece' :: pieces'))
        with (String c (piece ++ String nul (joinNul (piece' :: pieces')))).
      now rewrite <- IH.
Qed.

Lemma splitNul_pieces_nulFree s : Forall (fun piece => nulFree piece = true) (splitNul s).
Proof.
  induction s as [|c s IH]; simpl; [repeat constructor|].
  destruct (Ascii.eqb c nul) eqn:Hc; [now constructor|].
  destruct (splitNul s) as [|piece pieces]; [repeat constructor; simpl; now rewrite Hc|].
  inversion IH; subst. constructor; [|assumption].
  simpl. now rewrite Hc.
Qed.

(** X1. getProcessCommand reads back the arguments of a cmdline file:
    when the file of a pid holds a non-empty list of arguments without NUL
    bytes, each followed by a NUL, the command returned is that list. *)
Theorem command_of_cmdline_file os pid args :
  args <> [] -> Forall (fun arg => nulFree arg = true) args ->
  readCmdline os pid = Some (cmdlineFile args) ->
  getProcessCommand os pid = Ok args.
Proof.
  intros Hne Hfree Hread. unfold getProcessCommand. rewrite Hread.
  now rewrite trimSuffixNul_cmdlineFile, splitNul_joinNul.
Qed.

Lemma command_of_cmdline_file_witness :
  getProcessCommand osTwoRunning 11 = Ok ["ping"; "google.com"].
Proof.
  apply command_of_cmdline_file.
  - discriminate.
  - repeat constructor.
  - reflexivity.
Defined.

(** X2. Whatever the cmdline file holds, the command getProcessCommand
    returns is never the empty list, none of its arguments holds a NUL
    byte, and the arguments with a NUL between them are the file without
    one NUL at its end; an empty file gives the one empty argument. A file
    that cannot be read gives the error that names the pid. *)
Theorem command_shape os pid :
  (forall data, readCmdline os pid = Some data ->
     exists command,
       getProcessCommand os pid = Ok command /\
       command <> [] /\
       Forall (fun arg => nulFree arg = true) command /\
       joinNul command = trimSuffixNul data) /\
  (readCmdline os pid = Some "" -> getProcessCommand os pid = Ok [""]) /\
  (readCmdline os pid = None -> getProcessCommand os pid = Fail (ErrReadCmdline pid)).
Proof.
  unfold getProcessCommand. split; [|split].
  - intros data ->. eexists. split; [reflexivity|].
    split; [apply splitNul_not_nil|]. split; [apply splitNul_pieces_nulFree|].
    apply joinNul_splitNul.
  - now intros ->.
  - now intros ->.
Qed.

Lemma command_shape_witness :
  exists command,
    getProcessCommand osWithZombie 12 = Ok command /\
    command <> [] /\
    Forall (fun arg => nulFree arg = true) command /\
    joinNul command = trimSuffixNul "".
Proof.
  apply (proj1 (command_shape osWithZombie 12) ""). reflexivity.
Defined.

(** *** Which error comes first *)

Lemma seedPidMap_unreadable os pids bad pidMap :
  firstUnreadable os pids = Some bad ->
  seedPidMap os pids pidMap = Fail (ErrReadCmdline bad).
Proof.
  unfold firstUnreadable. revert pidMap.
  induction pids as [|pid rest IH]; intros pidMap Hfind; simpl in *; [discriminate|].
  unfold getProcessCommand. destruct (readCmdline os pid) as [data|] eqn:Hread.
  - rewrite bool_decide_eq_true_2 in Hfind by eauto. simpl in Hfind. now apply IH.
  - rewrite bool_decide_eq_false_2 in Hfind by (intros [x Hx]; discriminate).
    simpl in Hfind. now inversion Hfind.
Qed.

(** X3. Both views fail with the first error met, in the order of their
    steps: a failed [runc ps] and an output that is not a list of pids are
    returned before anything is read; then the first pid, in runC's order,
    whose command line cannot be read, whatever the directory holds; then a
    directory that cannot be listed. *)
Theorem views_fail_with_the_first_error os id :
  (forall out, runcPs os id = PsFailed out ->
     GetRunningProcesses os id = Fail (ErrRuncPs out) /\
     GetAllProcesses os id = Fail (ErrRuncPs out)) /\
  (forall out, runcPs os id = PsGarbled out ->
     GetRunningProcesses os id = Fail (ErrUnmarshalPids id) /\
     GetAllProcesses os id = Fail (ErrUnmarshalPids id)) /\
  (forall pids bad, runcPs os id = PsPids pids -> firstUnreadable os pids = Some bad ->
     GetRunningProcesses os id = Fail (ErrReadCmdline bad) /\
     GetAllProcesses os id = Fail (ErrReadCmdline bad)) /\
  (forall pids, runcPs os id = PsPids pids -> runningReadable os pids ->
     readDir os (containerDirOf id) = None ->
     GetRunningProcesses os id = Fail (ErrReadDir (containerDirOf id)) /\
     GetAllProcesses os id = Fail (ErrReadDir (containerDirOf id))).
Proof.
  unfold GetRunningProcesses, GetAllProcesses, getRunningPids.
  split; [|split; [|split]].
  - intros out ->. split; reflexivity.
  - intros out ->. split; reflexivity.
  - intros pids bad -> Hbad. now rewrite (seedPidMap_unreadable _ _ _ _ Hbad).
  - intros pids -> Hread Hdir.
    destruct (seedPidMap_ok os pids ∅ Hread) as [seed ->]. now rewrite Hdir.
Qed.

Lemma views_fail_with_the_first_error_witness :
  (GetRunningProcesses osPsFails "c1" = Fail (ErrRuncPs "container does not exist") /\
   GetAllProcesses osPsFails "c1" = Fail (ErrRuncPs "container does not exist")) /\
  (GetRunningProcesses osRace "c1" = Fail (ErrReadCmdline 13) /\
   GetAllProcesses osRace "c1" = Fail (ErrReadCmdline 13)).
Proof.
  split.
  - apply (proj1 (views_fail_with_the_first_error osPsFails "c1")). reflexivity.
  - apply (proj1 (proj2 (proj2 (views_fail_with_the_first_error osRace "c1"))) [10; 13; 11]);
      reflexivity.
Defined.

(** *** The all-processes view as a whole *)

(** X4. The all-processes view holds exactly one entry for every pid that
    runC reports and for every pid that has a process directory while the
    process exists, and no other entry: a directory whose process is gone
    and which runC does not report leaves no entry. *)
Theorem all_view_pids os id states pids names :
  GetAllProcesses os id = Ok states ->
  runcPs os id = PsPids pids ->
  readDir os (containerDirOf id) = Some names ->
  NoDup (Pid <$> states) /\
  (forall pid, pid ∈ Pid <$> states <-> pid ∈ pids \/ onDisk os names pid = true).
Proof.
  intros Hok Hps Hdir.
  destruct (GetAllProcesses_inv _ _ _ Hok)
    as (pids' & names' & pidMap & Hps' & Hdir' & -> & Hmap).
  assert (pids' = pids) by congruence. assert (names' = names) by congruence.
  subst pids' names'.
  pose proof (all_view_keyed _ _ _ _ Hmap) as Hkey.
  split; [now apply states_NoDup|].
  intros pid. rewrite list_elem_of_fmap. split.
  - intros (st & -> & Hst). apply elem_of_states in Hst as [q Hq].
    rewrite (Hkey _ _ Hq). destruct (Hmap q) as (_ & _ & Hnone).
    destruct (decide (q ∈ pids)) as [Hin|Hout]; [now left|].
    destruct (onDisk os names q) eqn:Hon; [now right|].
    rewrite (Hnone Hout eq_refl) in Hq. discriminate.
  - destruct (Hmap pid) as (Hin & Hzombie & _).
    destruct (decide (pid ∈ pids)) as [Hp|Hp].
    + intros _. destruct (Hin Hp) as (c & _ & Hl).
      eexists. split; [|apply elem_of_states; eauto]. reflexivity.
    + intros [Hp'|Hon]; [contradiction|].
      destruct (Hzombie Hp Hon) as (c & _ & Hl).
      eexists. split; [|apply elem_of_states; eauto]. reflexivity.
Qed.

Lemma all_view_pids_witness :
  exists states,
    GetAllProcesses osWithZombie "c1" = Ok states /\
    NoDup (Pid <$> states) /\
    (forall pid,
       pid ∈ Pid <$> states <->
       pid ∈ [10; 11] \/ onDisk osWithZombie ["11"; "12"; "initpid"] pid = true).
Proof.
  eexists. split; [vm_compute; reflexivity|].
  apply (all_view_pids osWithZombie "c1"); vm_compute; reflexivity.
Defined.

(** X5. In the all-processes view an entry is a zombie exactly when runC
    does not report its pid, every zombie is marked as created by the
    runtime, and every entry carries the command line of its pid; every
    entry of the running-processes view has an entry with the same pid in
    the all-processes view, which is not a zombie. *)
Theorem all_view_flags os id states pids :
  GetAllProcesses os id = Ok states ->
  runcPs os id = PsPids pids ->
  (forall st, st ∈ states ->
     (IsZombie st = true <-> Pid st ∉ pids) /\
     (IsZombie st = true -> CreatedByRuntime st = true) /\
     getProcessCommand os (Pid st) = Ok (Command st)) /\
  (forall running r,
     GetRunningProcesses os id = Ok running -> r ∈ running ->
     exists a, a ∈ states /\ Pid a = Pid r /\ IsZombie a = false).
Proof.
  intros Hok Hps.
  destruct (GetAllProcesses_inv _ _ _ Hok)
    as (pids' & names & pidMap & Hps' & Hdir & -> & Hmap).
  assert (pids' = pids) by congruence. subst pids'.
  split.
  - intros st Hst. apply elem_of_states in Hst as [q Hq].
    destruct (Hmap q) as (Hin & Hzombie & Hnone).
    destruct (decide (q ∈ pids)) as [Hp|Hp].
    + destruct (Hin Hp) as (c & Hc & Hl). rewrite Hl in Hq. inversion Hq; subst st.
      simpl. split; [split; [discriminate | contradiction]|].
      split; [discriminate | assumption].
    + destruct (onDisk os names q) eqn:Hon.
      * destruct (Hzombie Hp eq_refl) as (c & Hc & Hl). rewrite Hl in Hq.
        inversion Hq; subst st. simpl. tauto.
      * rewrite (Hnone Hp eq_refl) in Hq. discriminate.
  - intros running r Hrun Hr.
    destruct (GetRunningProcesses_inv _ _ _ Hrun)
      as (pids' & names' & mapR & Hps'' & _ & -> & HmapR).
    assert (pids' = pids) by congruence. subst pids'.
    apply elem_of_states in Hr as [q Hq].
    destruct (HmapR q) as [HinR HoutR].
    destruct (decide (q ∈ pids)) as [Hp|Hp]; [|rewrite (HoutR Hp) in Hq; discriminate].
    destruct (HinR Hp) as (c & _ & Hl). rewrite Hl in Hq. inversion Hq; subst r.
    destruct (Hmap q) as (Hin & _ & _). destruct (Hin Hp) as (c' & _ & Hl').
    eexists. split; [apply elem_of_states; eauto|]. split; reflexivity.
Qed.

Lemma all_view_flags_witness :
  exists states,
    GetAllProcesses osWithZombie "c1" = Ok states /\
    (forall st, st ∈ states ->
       (IsZombie st = true <-> Pid st ∉ [10; 11]) /\
       (IsZombie st = true -> CreatedByRuntime st = true) /\
       getProcessCommand osWithZombie (Pid st) = Ok (Command st)) /\
    (forall running r,
       GetRunningProcesses osWithZombie "c1" = Ok running -> r ∈ running ->
       exists a, a ∈ states /\ Pid a = Pid r /\ IsZombie a = false).
Proof.
  eexists. split; [vm_compute; reflexivity|].
  apply (all_view_flags osWithZombie "c1"); vm_compute; reflexivity.
Defined.

(** *** Directory names *)

(** X6. The name startProcess gives to a process directory, the decimal
    form of the pid, is read back by both scans as that pid: it is not the
    init-pid file's name, it parses to the pid and it is not reported as a
    corrupt entry. *)
Theorem process_dir_name_reads_back pid :
  minInt <= pid <= maxInt ->
  Atoi (Itoa pid) = Some pid /\
  Itoa pid <> initPidFilename /\
  isPidDirOf pid (Itoa pid) = true /\
  isCorruptName (Itoa pid) = false /\
  (forall names, Itoa pid ∈ names -> hasPidDir names pid = true) /\
  (forall id, Supervisor.getProcessDir id pid = Join (containerDirOf id) (Itoa pid)).
Proof.
  intros Hrange. pose proof (Atoi_Itoa pid Hrange) as Hround.
  assert (Hne : Itoa pid <> initPidFilename).
  { intros Heq. rewrite Heq in Hround. discriminate Hround. }
  assert (Hdir : isPidDirOf pid (Itoa pid) = true).
  { unfold isPidDirOf. apply andb_true_intro. split.
    - now apply negb_true_iff, String.eqb_neq.
    - now apply bool_decide_eq_true. }
  split; [assumption|]. split; [assumption|]. split; [assumption|]. split.
  - destruct (isCorruptName (Itoa pid)) eqn:Hc; [|reflexivity].
    apply isCorruptName_true in Hc as [_ Hc]. congruence.
  - split; [|reflexivity]. intros names Hin. apply hasPidDir_true. eauto.
Qed.

Lemma process_dir_name_reads_back_witness :
  Atoi (Itoa 4711) = Some 4711 /\
  Itoa 4711 <> initPidFilename /\
  isPidDirOf 4711 (Itoa 4711) = true /\
  isCorruptName (Itoa 4711) = false /\
  (forall names, Itoa 4711 ∈ names -> hasPidDir names 4711 = true) /\
  (forall id, Supervisor.getProcessDir id 4711 = Join (containerDirOf id) (Itoa 4711)).
Proof.
  apply process_dir_name_reads_back. unfold minInt, maxInt. lia.
Defined.

End ReconcilerMore.

(** ** More on the supervisor's directories *)
Module SupervisorMore.
Import Strconv Supervisor SupervisorProofs Facts.

Lemma length_append a b :
  String.length (a ++ b) = (String.length a + String.length b)%nat.
Proof.
  induction a as [|c a IH]; [reflexivity|].
  change (S (String.length (a ++ b)) = S (String.length a + String.length b)).
  now rewrite IH.
Qed.

Lemma append_empty a : a ++ "" = a.
Proof.
  induction a as [|c a IH]; [reflexivity|].
  change (String c (a ++ "") = String c a). now rewrite IH.
Qed.

Lemma substring_none n s : String.substring n 0 s = "".
Proof.
  revert s. induction n as [|n IH]; intros [|c s]; simpl; try reflexivity. apply IH.
Qed.

Lemma prefix_length a b :
  String.prefix a b = true -> (String.length a <= String.length b)%nat.
Proof.
  revert b. induction a as [|c a IH]; intros b H; simpl; [lia|].
  destruct b as [|d b]; simpl in H; [discriminate|].
  destruct (Ascii.ascii_dec c d); [|discriminate].
  apply IH in H. simpl. lia.
Qed.

Lemma rebase_self src dst : rebase src dst src = dst.
Proof.
  unfold rebase. rewrite isUnder_self, Nat.sub_diag, substring_none.
  apply append_empty.
Qed.

Lemma rebase_outside src dst path : isUnder src path = false -> rebase src dst path = path.
Proof. intros H. unfold rebase. now rewrite H. Qed.

Lemma elem_of_renameTree src dst path (fs : FS) :
  path ∈ renameTree src dst fs <-> exists q, path = rebase src dst q /\ q ∈ fs.
Proof. unfold renameTree. apply elem_of_map. Qed.

(** The temporary directory of a create or an exec is not the container's
    directory and does not hold it, the random suffix not being empty. *)
Lemma container_dir_outside_temp id sfx :
  sfx <> "" ->
  isUnder (Join containerFilesDir (id ++ sfx)) (getContainerDir id) = false.
Proof.
  intros Hsfx. unfold isUnder, getContainerDir, Join.
  assert (Hlen : (String.length (containerFilesDir ++ "/" ++ id) <
                  String.length (containerFilesDir ++ "/" ++ id ++ sfx))%nat).
  { rewrite !length_append. destruct sfx; [contradiction|]. simpl. lia. }
  apply orb_false_intro.
  - apply String.eqb_neq. intros Heq. rewrite Heq in Hlen. lia.
  - destruct (String.prefix _ _) eqn:Hpre; [|reflexivity].
    apply prefix_length in Hpre. rewrite length_append in Hpre. lia.
Qed.

(** X7. After a successful CreateContainer the layout is in place: the
    returned container has the requested id and the pid read from the pid
    file, and the container's directory, the process directory named with
    that pid and the init-pid file exist. *)
Theorem create_success_layout w id bundlePath stdioOptions (fs fs' : FS) c sfx :
  CreateContainer w id bundlePath stdioOptions fs = (Ok c, fs') ->
  tempSuffix w = Some sfx -> sfx <> "" ->
  Supervisor.id (p c) = id /\
  readPidFile w (Join (Join containerFilesDir (id ++ sfx)) "pid") = Some (pid (p c)) /\
  getContainerDir id ∈ fs' /\
  getProcessDir id (pid (p c)) ∈ fs' /\
  Join (getContainerDir id) initPidFilename ∈ fs' /\
  fs' = {[ Join (getContainerDir id) initPidFilename ]} ∪
        renameTree (Join containerFilesDir (id ++ sfx)) (getProcessDir id (pid (p c)))
          ({[ Join containerFilesDir (id ++ sfx) ]} ∪ ({[ getContainerDir id ]} ∪ fs)).
Proof.
  intros H Hsfx Hne. revert H. unfold_create. rewrite Hsfx. intros H.
  repeat (next_answer H; cbn [fst snd] in H; cbv beta iota in H);
    inversion H; subst; clear H; cbn [p pid Supervisor.id];
    (split; [reflexivity|]); (split; [reflexivity|]);
    (split; [apply elem_of_union_r, elem_of_renameTree;
             exists (getContainerDir id); split;
             [symmetry; apply rebase_outside, container_dir_outside_temp; assumption
             | set_solver]|]);
    (split; [apply elem_of_union_r, elem_of_renameTree;
             exists (Join containerFilesDir (id ++ sfx)); split;
             [symmetry; apply rebase_self | set_solver]|]);
    (split; [set_solver | reflexivity]).
Qed.

Lemma create_success_layout_witness :
  Supervisor.id (p sampleContainer) = "c1" /\
  readPidFile worldFine (Join (Join containerFilesDir ("c1" ++ "123456789")) "pid") =
    Some (pid (p sampleContainer)) /\
  getContainerDir "c1" ∈ sampleFS /\
  getProcessDir "c1" (pid (p sampleContainer)) ∈ sampleFS /\
  Join (getContainerDir "c1") initPidFilename ∈ sampleFS /\
  sampleFS = {[ Join (getContainerDir "c1") initPidFilename ]} ∪
        renameTree (Join containerFilesDir ("c1" ++ "123456789"))
          (getProcessDir "c1" (pid (p sampleContainer)))
          ({[ Join containerFilesDir ("c1" ++ "123456789") ]} ∪
           ({[ getContainerDir "c1" ]} ∪ ∅)).
Proof.
  apply (create_success_layout worldFine "c1" "/bundle" noStdio ∅).
  - vm_compute. reflexivity.
  - reflexivity.
  - discriminate.
Defined.

(** X8. Start leaves the directories alone when [runc start] succeeds.
    When it fails, Start returns the start failure with runC's output
    whatever the removal of the container's directory returns: the
    directory is gone when the removal succeeds, and everything is as
    before when it fails, the removal's own error being dropped. *)
Theorem start_cleans_up_on_failure w c (fs : FS) out ok :
  combinedOutput w ["--log"; logPath w; "start"; id (p c)] = (out, ok) ->
  (ok = true -> Start w c fs = (Ok tt, fs)) /\
  (ok = false ->
     (Start w c fs).1 = Fail (ErrRuncStart out) /\
     (removeAll w (getContainerDir (id (p c))) = true ->
        (Start w c fs).2 = removeTree (getContainerDir (id (p c))) fs /\
        getContainerDir (id (p c)) ∉ (Start w c fs).2) /\
     (removeAll w (getContainerDir (id (p c))) = false -> (Start w c fs).2 = fs)).
Proof.
  intros Hrun. unfold Start. rewrite Hrun. split.
  - now intros ->.
  - intros ->. unfold cleanupContainer, bind, check, modify, ret, fail.
    destruct (removeAll w (getContainerDir (id (p c)))); simpl.
    + split; [reflexivity|]. split; [|discriminate].
      intros _. split; [reflexivity | apply removeTree_gone].
    + split; [reflexivity|]. split; [discriminate | reflexivity].
Qed.

Lemma start_cleans_up_on_failure_witness :
  (Start worldRuncFails sampleContainer sampleFS).1 =
    Fail (ErrRuncStart "container is not stopped") /\
  (removeAll worldRuncFails (getContainerDir (id (p sampleContainer))) = true ->
     (Start worldRuncFails sampleContainer sampleFS).2 =
       removeTree (getContainerDir (id (p sampleContainer))) sampleFS /\
     getContainerDir (id (p sampleContainer)) ∉
       (Start worldRuncFails sampleContainer sampleFS).2) /\
  (removeAll worldRuncFails (getContainerDir (id (p sampleContainer))) = false ->
     (Start worldRuncFails sampleContainer sampleFS).2 = sampleFS).
Proof.
  apply (proj2 (start_cleans_up_on_failure worldRuncFails sampleContainer sampleFS
                  "container is not stopped" false eq_refl)).
  reflexivity.
Defined.

(** X17. When CreateContainer fails on writing the init-pid file, runC has
    already created the container and the process directory has already
    been renamed to its pid: the error returns with the container's
    directory and the process directory in place and no init-pid file
    added. *)
Theorem create_fails_late_on_init_pid w id bundlePath stdioOptions (fs fs' : FS) sfx :
  CreateContainer w id bundlePath stdioOptions fs = (Fail ErrWriteInitPid, fs') ->
  tempSuffix w = Some sfx -> sfx <> "" ->
  writeFile w (Join (getContainerDir id) initPidFilename) = false /\
  exists pid,
    readPidFile w (Join (Join containerFilesDir (id ++ sfx)) "pid") = Some pid /\
    getContainerDir id ∈ fs' /\
    getProcessDir id pid ∈ fs' /\
    fs' = renameTree (Join containerFilesDir (id ++ sfx)) (getProcessDir id pid)
            ({[ Join containerFilesDir (id ++ sfx) ]} ∪ ({[ getContainerDir id ]} ∪ fs)).
Proof.
  intros H Hsfx Hne. revert H. unfold_create. rewrite Hsfx. intros H.
  repeat (next_answer H; cbn [fst snd] in H; cbv beta iota in H);
    inversion H; subst; clear H;
    (split; [reflexivity|]); eexists; (split; [first [reflexivity | eassumption]|]);
    (split; [apply elem_of_renameTree;
             exists (getContainerDir id); split;
             [symmetry; apply rebase_outside, container_dir_outside_temp; assumption
             | set_solver]|]);
    (split; [apply elem_of_renameTree;
             exists (Join containerFilesDir (id ++ sfx)); split;
             [symmetry; apply rebase_self | set_solver]|]);
    reflexivity.
Qed.

Lemma create_fails_late_on_init_pid_witness :
  writeFile worldNoInitPid (Join (getContainerDir "c1") initPidFilename) = false /\
  exists pid,
    readPidFile worldNoInitPid (Join (Join containerFilesDir ("c1" ++ "123456789")) "pid") =
      Some pid /\
    getContainerDir "c1" ∈
      ({[ "/var/lib/gcsrunc/c1"; "/var/lib/gcsrunc/c1/4711" ]} : FS) /\
    getProcessDir "c1" pid ∈
      ({[ "/var/lib/gcsrunc/c1"; "/var/lib/gcsrunc/c1/4711" ]} : FS) /\
    ({[ "/var/lib/gcsrunc/c1"; "/var/lib/gcsrunc/c1/4711" ]} : FS) =
      renameTree (Join containerFilesDir ("c1" ++ "123456789")) (getProcessDir "c1" pid)
        ({[ Join containerFilesDir ("c1" ++ "123456789") ]} ∪
         ({[ getContainerDir "c1" ]} ∪ ∅)).
Proof.
  apply (create_fails_late_on_init_pid worldNoInitPid "c1" "/bundle" noStdio ∅).
  - vm_compute. reflexivity.
  - reflexivity.
  - discriminate.
Defined.

End SupervisorMore.

(** ** Wait, exists and exec *)
Module LifecycleProofs.
Import Strconv Supervisor Lifecycle Facts.
Import SupervisorProofs SupervisorMore.

(** *** Wait *)

Lemma waitOnProcess_log waiter pid waited :
  (waitOnProcess waiter pid waited).2 = (waited ++ [pid])%list.
Proof. unfold waitOnProcess. now destruct (waiter pid waited). Qed.

Lemma waitOnOthers_log waiter initPid processes waited :
  waitOnOthers waiter initPid processes waited =
  (waited ++ runtimeCreatedOthers initPid processes)%list.
Proof.
  unfold runtimeCreatedOthers. revert waited.
  induction processes as [|st rest IH]; intros waited; simpl.
  - now rewrite app_nil_r.
  - destruct (negb (Reconciler.Pid st =? initPid) && Reconciler.CreatedByRuntime st).
    + rewrite IH, waitOnProcess_log, <- app_assoc. reflexivity.
    + apply IH.
Qed.

Lemma elem_of_runtimeCreatedOthers initPid processes pid :
  pid ∈ runtimeCreatedOthers initPid processes <->
  pid <> initPid /\
  exists st, st ∈ processes /\ Reconciler.Pid st = pid /\
             Reconciler.CreatedByRuntime st = true.
Proof.
  unfold runtimeCreatedOthers. rewrite list_elem_of_fmap. split.
  - intros (st & -> & Hin). apply list_elem_of_In, filter_In in Hin as [Hin Hf].
    apply andb_prop in Hf as [Hpid Hcreated].
    apply negb_true_iff, Z.eqb_neq in Hpid.
    split; [assumption|]. exists st. split; [now apply list_elem_of_In | auto].
  - intros (Hne & st & Hin & <- & Hcreated). exists st. split; [reflexivity|].
    apply list_elem_of_In, filter_In. split; [now apply list_elem_of_In|].
    apply andb_true_intro. split; [|assumption].
    now apply negb_true_iff, Z.eqb_neq.
Qed.

Lemma runtimeCreatedOthers_NoDup initPid processes :
  NoDup (Reconciler.Pid <$> processes) -> NoDup (runtimeCreatedOthers initPid processes).
Proof.
  unfold runtimeCreatedOthers. induction processes as [|st rest IH]; simpl; intros Hnd.
  - constructor.
  - apply NoDup_cons in Hnd as [Hfresh Hrest].
    destruct (negb (Reconciler.Pid st =? initPid) && Reconciler.CreatedByRuntime st).
    + simpl. apply NoDup_cons. split; [|now apply IH].
      intros Hin. apply Hfresh. apply list_elem_of_fmap in Hin as (st' & Heq & Hin).
      apply list_elem_of_fmap. exists st'. split; [assumption|].
      apply list_elem_of_In, filter_In in Hin as [Hin _]. now apply list_elem_of_In.
    + now apply IH.
Qed.

Lemma all_view_NoDup os id states :
  Reconciler.GetAllProcesses os id = Ok states -> NoDup (Reconciler.Pid <$> states).
Proof.
  intros Hok.
  destruct (ReconcilerProofs.GetAllProcesses_inv _ _ _ Hok)
    as (pids & names & pidMap & _ & _ & -> & Hmap).
  apply ReconcilerProofs.states_NoDup.
  exact (ReconcilerProofs.all_view_keyed _ _ _ _ Hmap).
Qed.

(** X9. Wait waits on nothing when the processes cannot be listed, and
    returns that error. Otherwise it waits once on every process other
    than the init process that the all-processes view marks as created by
    the runtime, on no other process, and then once, last, on the init
    process; what it returns is what that last wait gives, whatever the
    earlier waits returned. *)
Theorem wait_reaps_children_then_init os waiter c :
  (forall e, Reconciler.GetAllProcesses os (id (p c)) = Fail e ->
     Wait os waiter c = (Fail (ErrReconcile e), [])) /\
  (forall processes,
     Reconciler.GetAllProcesses os (id (p c)) = Ok processes ->
     let others := runtimeCreatedOthers (pid (p c)) processes in
     (Wait os waiter c).2 = (others ++ [pid (p c)])%list /\
     NoDup (others ++ [pid (p c)]) /\
     (forall q, q ∈ others <->
        q <> pid (p c) /\
        exists st, st ∈ processes /\ Reconciler.Pid st = q /\
                   Reconciler.CreatedByRuntime st = true) /\
     (Wait os waiter c).1 =
       match waiter (pid (p c)) others with
       | FindProcessFailed => Fail (ErrFindProcess (pid (p c)))
       | ProcessWaitFailed => Fail (ErrWaitProcess (pid (p c)))
       | Exited state => Ok state
       end).
Proof.
  split.
  - intros e He. unfold Wait. now rewrite He.
  - intros processes Hok others. unfold Wait. rewrite Hok.
    rewrite waitOnOthers_log, app_nil_l. fold others.
    split; [apply waitOnProcess_log|]. split; [|split].
    + apply NoDup_app. split; [|split].
      * apply runtimeCreatedOthers_NoDup. eapply all_view_NoDup; eassumption.
      * intros q Hq Hinit. apply list_elem_of_singleton in Hinit. subst q.
        apply elem_of_runtimeCreatedOthers in Hq as [Hne _]. congruence.
      * apply NoDup_singleton.
    + intros q. apply elem_of_runtimeCreatedOthers.
    + unfold waitOnProcess. now destruct (waiter (pid (p c)) others).
Qed.

Lemma wait_reaps_children_then_init_witness :
  exists processes,
    Reconciler.GetAllProcesses Reconciler.osWithZombie (id (p containerTen)) = Ok processes /\
    (Wait Reconciler.osWithZombie reapOnce containerTen).2 =
      (runtimeCreatedOthers 10 processes ++ [10])%list /\
    NoDup (runtimeCreatedOthers 10 processes ++ [10]) /\
    (Wait Reconciler.osWithZombie reapOnce containerTen).1 = Ok 0.
Proof.
  eexists. split; [vm_compute; reflexivity|].
  destruct (proj2 (wait_reaps_children_then_init Reconciler.osWithZombie reapOnce containerTen)
              _ ltac:(vm_compute; reflexivity)) as (Hlog & Hnd & _ & Hres).
  split; [exact Hlog|]. split; [exact Hnd|]. rewrite Hres. vm_compute. reflexivity.
Defined.

Example wait_on_sample :
  Wait Reconciler.osWithZombie reapOnce containerTen = (Ok 0, [11; 12; 10]).
Proof. vm_compute. reflexivity. Qed.

(** *** Exists *)

Lemma hasState_true id states :
  hasState id states = true <-> exists state, state ∈ states /\ ID state = id.
Proof.
  induction states as [|state rest IH]; simpl.
  - split; [discriminate | intros (st & Hin & _); inversion Hin].
  - destruct (String.eqb (ID state) id) eqn:Heq.
    + apply String.eqb_eq in Heq. split; [|reflexivity].
      intros _. exists state. split; [left | assumption].
    + apply String.eqb_neq in Heq. rewrite IH. split.
      * intros (st & Hin & Hid). exists st. split; [now right | assumption].
      * intros (st & Hin & Hid). apply elem_of_cons in Hin as [->|Hin]; [contradiction|].
        eauto.
Qed.

(** X10. Exists answers true exactly when [runc list] lists a state with
    the container's id, whatever the status of that state, and false
    exactly when it lists the states and none has the id; a failed or
    unreadable listing is an error, not an answer. *)
Theorem exists_iff_listed runcList c :
  (Exists runcList c = Ok true <->
   exists states, runcList = ListStates states /\
                  exists state, state ∈ states /\ ID state = id (p c)) /\
  (Exists runcList c = Ok false <->
   exists states, runcList = ListStates states /\
                  forall state, state ∈ states -> ID state <> id (p c)) /\
  (forall out, runcList = ListFailed out -> Exists runcList c = Fail (ErrRuncList out)) /\
  (forall out, runcList = ListGarbled out -> Exists runcList c = Fail ErrUnmarshalStates).
Proof.
  unfold Exists, ListContainerStates. split; [|split; [|split]].
  - destruct runcList as [out|out|states]; split; try discriminate.
    + intros (states & Heq & _). discriminate.
    + intros (states & Heq & _). discriminate.
    + intros H. inversion H as [Hfound]. exists states. split; [reflexivity|].
      now apply hasState_true.
    + intros (states' & Heq & Hfound). inversion Heq; subst states'.
      f_equal. now apply hasState_true.
  - destruct runcList as [out|out|states]; split; try discriminate.
    + intros (states & Heq & _). discriminate.
    + intros (states & Heq & _). discriminate.
    + intros H. inversion H as [Hnone]. exists states. split; [reflexivity|].
      intros state Hin Hid.
      assert (hasState (id (p c)) states = true) by (apply hasState_true; eauto).
      congruence.
    + intros (states' & Heq & Hnone). inversion Heq; subst states'. f_equal.
      destruct (hasState (id (p c)) states) eqn:Hfound; [|reflexivity].
      apply hasState_true in Hfound as (state & Hin & Hid).
      now elim (Hnone state Hin).
  - now intros out ->.
  - now intros out ->.
Qed.

Lemma exists_iff_listed_witness :
  Exists (ListStates sampleStates) sampleContainer = Ok true.
Proof.
  apply (proj1 (exists_iff_listed (ListStates sampleStates) sampleContainer)).
  exists sampleStates. split; [reflexivity|].
  eexists. split; [right; left | reflexivity].
Defined.

(** *** Exec *)

Example exec_on_sample :
  ExecProcess worldFine execFine sampleContainer false noStdio
    {[ "/var/lib/gcsrunc/c1" ]} =
  (Ok (mkProcess "c1" 4711), {[ "/var/lib/gcsrunc/c1"; "/var/lib/gcsrunc/c1/4711" ]}).
Proof. vm_compute. reflexivity. Qed.

Ltac unfold_exec :=
  unfold ExecProcess, runExecCommand, TempDir, startProcess, createConsoleSocket,
    bind, check, modify, ret, fail.

Ltac next_exec_answer H :=
  match type of H with
  | context [createFile ?xw ?path] => destruct (createFile xw path) eqn:?
  | context [encodeProcess ?xw] => destruct (encodeProcess xw) eqn:?
  | _ => next_answer H
  end.

(** X11. A successful ExecProcess returns a process with the container's
    id and the pid read from the pid file, and the temporary directory has
    become the process directory named with that pid. A failed ExecProcess
    removes nothing: the directories are those from before, with the
    temporary directory still there unless it could not be made. *)
Theorem exec_moves_or_leaves_temp_dir w xw c terminal stdioOptions (fs fs' : FS) :
  (forall pr,
     ExecProcess w xw c terminal stdioOptions fs = (Ok pr, fs') ->
     exists sfx,
       tempSuffix w = Some sfx /\
       Supervisor.id pr = id (p c) /\
       readPidFile w (Join (Join containerFilesDir (id (p c) ++ sfx)) "pid") = Some (pid pr) /\
       getProcessDir (id (p c)) (pid pr) ∈ fs' /\
       fs' = renameTree (Join containerFilesDir (id (p c) ++ sfx))
               (getProcessDir (id (p c)) (pid pr))
               ({[ Join containerFilesDir (id (p c) ++ sfx) ]} ∪ fs)) /\
  (forall e,
     ExecProcess w xw c terminal stdioOptions fs = (Fail e, fs') ->
     match tempSuffix w with
     | None => e = ErrSupervisor ErrTempDir /\ fs' = fs
     | Some sfx => fs' = {[ Join containerFilesDir (id (p c) ++ sfx) ]} ∪ fs
     end).
Proof.
  split.
  - intros pr. unfold_exec. intros H.
    repeat (next_exec_answer H; cbn [fst snd negb] in H; cbv beta iota in H);
      inversion H; subst; clear H;
      (eexists; split; [reflexivity|]); cbn [Supervisor.id pid];
      (split; [reflexivity|]); (split; [eassumption|]);
      (split; [|reflexivity]);
      apply elem_of_renameTree; eexists; (split; [symmetry; apply rebase_self|]);
      set_solver.
  - intros e. unfold_exec. intros H.
    repeat (next_exec_answer H; cbn [fst snd negb] in H; cbv beta iota in H);
      inversion H; subst; clear H; try reflexivity; now split.
Qed.

Lemma exec_moves_or_leaves_temp_dir_witness :
  exists sfx,
    tempSuffix worldFine = Some sfx /\
    Supervisor.id (mkProcess "c1" 4711) = id (p sampleContainer) /\
    readPidFile worldFine
      (Join (Join containerFilesDir (id (p sampleContainer) ++ sfx)) "pid") =
      Some (pid (mkProcess "c1" 4711)) /\
    getProcessDir (id (p sampleContainer)) (pid (mkProcess "c1" 4711)) ∈
      ({[ "/var/lib/gcsrunc/c1"; "/var/lib/gcsrunc/c1/4711" ]} : FS) /\
    ({[ "/var/lib/gcsrunc/c1"; "/var/lib/gcsrunc/c1/4711" ]} : FS) =
      renameTree (Join containerFilesDir (id (p sampleContainer) ++ sfx))
        (getProcessDir (id (p sampleContainer)) (pid (mkProcess "c1" 4711)))
        ({[ Join containerFilesDir (id (p sampleContainer) ++ sfx) ]} ∪
         {[ "/var/lib/gcsrunc/c1" ]}).
Proof.
  apply (proj1 (exec_moves_or_leaves_temp_dir worldFine execFine sampleContainer false
                  noStdio {[ "/var/lib/gcsrunc/c1" ]}
                  {[ "/var/lib/gcsrunc/c1"; "/var/lib/gcsrunc/c1/4711" ]})).
  vm_compute. reflexivity.
Defined.

End LifecycleProofs.

(** ** More on the console socket channel *)
Module ConsoleMore.
Import Console ConsoleProofs Facts.

Ltac split_message H :=
  repeat match type of H with
         | context [if ?b then _ else _] => destruct b eqn:?
         | context [ParseSocketControlMessage ?net ?oob] =>
             destruct (ParseSocketControlMessage net oob) as [[|? [|? ?]]|] eqn:?
         | context [ParseUnixRights ?net ?m] =>
             destruct (ParseUnixRights net m) as [[|? [|? ?]]|] eqn:?
         end.

(** X12. getMasterFromSocket returns a file exactly when the peer's one
    message has a name shorter than 4096 bytes and an ancillary buffer of
    the expected size that parses to one control message holding one
    descriptor; the file then wraps that descriptor and its name is the
    first [n] bytes of the name buffer. *)
Theorem master_returned_iff net f :
  (getMasterFromSocket net).1 = Ok f <->
  exists n oobn name oob message fd,
    accept net = AcceptedUnix (ReadMsg n oobn name oob) /\
    n < maxNameLen /\ oobn = oobSpace /\
    ParseSocketControlMessage net (take (Z.to_nat oobn) oob) = Some [message] /\
    ParseUnixRights net message = Some [fd] /\
    fileFd f = fd /\
    list_byte_of_string (fileName f) = take (Z.to_nat n) name.
Proof.
  unfold getMasterFromSocket. split.
  - destruct (accept net) as [| |[|n oobn name oob]] eqn:Hacc; simpl; try discriminate.
    unfold readMaster. intros H.
    destruct ((n >=? maxNameLen) || negb (oobn =? oobSpace)) eqn:Hguard;
      [simpl in H; discriminate|].
    apply orb_false_elim in Hguard as [Hn Hoob].
    apply negb_false_iff, Z.eqb_eq in Hoob.
    assert (n < maxNameLen) by (rewrite Z.geb_leb in Hn; apply Z.leb_gt in Hn; lia).
    cbv zeta in H. split_message H; simpl in H; try discriminate.
    inversion H; subst f. simpl.
    do 6 eexists. split; [reflexivity|]. split; [assumption|]. split; [assumption|].
    split; [eassumption|]. split; [eassumption|]. split; [reflexivity|].
    apply list_byte_of_string_of_list_byte.
  - intros (n & oobn & name & oob & message & fd & Hacc & Hn & Hoob & Hparse & Hrights
            & Hfd & Hname).
    rewrite Hacc. unfold readMaster.
    replace ((n >=? maxNameLen) || negb (oobn =? oobSpace)) with false.
    + cbv zeta. rewrite Hparse, Hrights. simpl. f_equal.
      destruct f as [ffd fname]. simpl in *. subst ffd. f_equal.
      now rewrite <- Hname, string_of_list_byte_of_string.
    + symmetry. apply orb_false_intro.
      * rewrite Z.geb_leb. apply Z.leb_gt. lia.
      * apply negb_false_iff, Z.eqb_eq. assumption.
Qed.

Lemma master_returned_iff_witness :
  (getMasterFromSocket netGood).1 = Ok (NewFile 7 "/dev/ptmx").
Proof.
  apply (proj2 (master_returned_iff netGood (NewFile 7 "/dev/ptmx"))).
  exists 9, 24, (list_byte_of_string "/dev/ptmx" ++ zeros 4087)%list, (zeros 24),
    rightsMessage, 7.
  repeat split; reflexivity.
Defined.

(** X13. getMasterFromSocket starts with Accept; when Accept fails it does
    nothing else, and otherwise it closes the connection exactly once, as
    its last step, on every path. It wraps a descriptor in a file once when
    it succeeds and never when it fails. *)
Theorem connection_closed_once net :
  let out := getMasterFromSocket net in
  head out.2 = Some EvAccept /\
  (accept net = AcceptFailed -> out = (Fail ErrAccept, [EvAccept])) /\
  (accept net <> AcceptFailed ->
     last out.2 = Some EvCloseConn /\
     length (List.filter isCloseEvent out.2) = 1%nat) /\
  length (List.filter isNewFileEvent out.2) =
    match out.1 with Ok _ => 1%nat | Fail _ => 0%nat end.
Proof.
  unfold getMasterFromSocket.
  destruct (accept net) as [| |[|n oobn name oob]] eqn:Hacc; cbv zeta.
  - repeat split; first [reflexivity | congruence].
  - repeat split; first [reflexivity | discriminate].
  - repeat split; first [reflexivity | discriminate].
  - unfold readMaster.
    destruct ((n >=? maxNameLen) || negb (oobn =? oobSpace));
      [repeat split; first [reflexivity | discriminate]|].
    cbv zeta.
    destruct (ParseSocketControlMessage net (take (Z.to_nat oobn) oob))
      as [[|message [|message' messages]]|];
      try (repeat split; first [reflexivity | discriminate]).
    destruct (ParseUnixRights net message) as [[|fd [|fd' fds]]|];
      repeat split; first [reflexivity | discriminate].
Qed.

Lemma connection_closed_once_witness :
  last (getMasterFromSocket netTwoFds).2 = Some EvCloseConn /\
  length (List.filter isCloseEvent (getMasterFromSocket netTwoFds).2) = 1%nat.
Proof.
  destruct (connection_closed_once netTwoFds) as (_ & _ & Hclosed & _).
  apply Hclosed. discriminate.
Defined.

(** X14. With a message of valid sizes, no control message and more than
    one are two different errors, and in both the descriptors are not
    parsed; one control message with no descriptor and with more than one
    descriptor are two further errors, which report the count received. An
    error of getMasterFromSocket has the text of another one only when
    both are built at the same place. *)
Theorem count_violations_are_told_apart :
  (forall net n oobn name oob messages,
     accept net = AcceptedUnix (ReadMsg n oobn name oob) ->
     n < maxNameLen -> oobn = oobSpace ->
     ParseSocketControlMessage net (take (Z.to_nat oobn) oob) = Some messages ->
     length messages <> 1%nat ->
     (getMasterFromSocket net).1 =
       Fail (if length messages is O then ErrNoControlMessages
             else ErrManyControlMessages (length messages)) /\
     existsb isRightsEvent (getMasterFromSocket net).2 = false) /\
  (forall net n oobn name oob message fds,
     accept net = AcceptedUnix (ReadMsg n oobn name oob) ->
     n < maxNameLen -> oobn = oobSpace ->
     ParseSocketControlMessage net (take (Z.to_nat oobn) oob) = Some [message] ->
     ParseUnixRights net message = Some fds ->
     length fds <> 1%nat ->
     (getMasterFromSocket net).1 =
       Fail (if length fds is O then ErrNoFileDescriptors
             else ErrManyFileDescriptors (length fds))) /\
  (forall e1 e2, errorText e1 = errorText e2 <-> errorSite e1 = errorSite e2).
Proof.
  assert (Hguard : forall n oobn, n < maxNameLen -> oobn = oobSpace ->
            (n >=? maxNameLen) || negb (oobn =? oobSpace) = false).
  { intros n oobn Hn Hoob. apply orb_false_intro.
    - rewrite Z.geb_leb. apply Z.leb_gt. lia.
    - apply negb_false_iff, Z.eqb_eq. assumption. }
  split; [|split].
  - intros net n oobn name oob messages Hacc Hn Hoob Hparse Hcount.
    unfold getMasterFromSocket, readMaster. rewrite Hacc, (Hguard n oobn Hn Hoob).
    cbv zeta. rewrite Hparse.
    destruct messages as [|message [|message' messages]]; simpl in *;
      [split; reflexivity | congruence | split; reflexivity].
  - intros net n oobn name oob message fds Hacc Hn Hoob Hparse Hrights Hcount.
    unfold getMasterFromSocket, readMaster. rewrite Hacc, (Hguard n oobn Hn Hoob).
    cbv zeta. rewrite Hparse, Hrights.
    destruct fds as [|fd [|fd' fds]]; simpl in *;
      [reflexivity | congruence | reflexivity].
  - intros e1 e2. split; intros H.
    + destruct e1, e2; try reflexivity; vm_compute in H; discriminate H.
    + destruct e1, e2; try reflexivity; discriminate H.
Qed.

Lemma count_violations_are_told_apart_witness :
  (getMasterFromSocket netTwoFds).1 = Fail (ErrManyFileDescriptors 2).
Proof.
  apply (proj1 (proj2 count_violations_are_told_apart) netTwoFds 9 24
           (list_byte_of_string "/dev/ptmx" ++ zeros 4087)%list (zeros 24)
           rightsMessage [7; 8]);
    first [reflexivity | discriminate | unfold maxNameLen; lia].
Defined.

End ConsoleMore.

(** ** More on the pty allocator *)
Module PtyMore.
Import Strconv Pty PtyProofs.

Ltac split_kernel :=
  repeat match goal with
         | |- context [ioctlTIOCGPTN ?k ?f] => destruct (ioctlTIOCGPTN k f) eqn:?
         | |- context [ioctlTIOCSPTLCK ?k ?f] => destruct (ioctlTIOCSPTLCK k f) eqn:?
         | |- context [chmod ?k ?path] => destruct (chmod k path) eqn:?
         | |- context [chown ?k ?path] => destruct (chown k path) eqn:?
         end; simpl.

(** X15. Whatever the kernel answers, NewConsole returns a master exactly
    when it returns no error, and an empty path with every error; it closes
    no descriptor, opens none but the master, and opens nothing at all when
    the multiplexer cannot be opened; a master it returns is the descriptor
    it opened. *)
Theorem new_console_result_shape (k : Kernel) (fds : Fds) :
  let out := NewConsole k fds in
  (out.1.1.1 = None <-> out.1.2 <> None) /\
  (out.1.2 <> None -> out.1.1.2 = "") /\
  fds ⊆ out.2 /\
  (forall fd, fd ∈ out.2 -> fd ∈ fds \/ openPtmx k = Some fd) /\
  (openPtmx k = None -> out = ((None, "", Some ErrOpenPtmx), fds)) /\
  (forall master, out.1.1.1 = Some master -> openPtmx k = Some master /\ master ∈ out.2).
Proof.
  cbv zeta. unfold NewConsole, ptsname, unlockpt.
  destruct (openPtmx k) as [master|] eqn:Hopen.
  - split_kernel;
      (split; [split; intros; congruence|]);
      (split; [intros; congruence|]);
      (split; [apply union_subseteq_r|]);
      (split; [intros fd Hfd; apply elem_of_union in Hfd as [Hfd|Hfd];
               [apply elem_of_singleton in Hfd; subst; now right | now left]|]);
      (split; [intros; congruence|]);
      intros m Hm; simplify_eq; split;
      [reflexivity | apply elem_of_union_l, elem_of_singleton; reflexivity].
  - simpl. split; [split; intros; congruence|]. split; [reflexivity|].
    split; [reflexivity|]. split; [now left|]. split; [reflexivity | discriminate].
Qed.

Lemma new_console_result_shape_witness :
  (NewConsole kernelChownFails sampleFds).1.1.1 = None /\
  (NewConsole kernelChownFails sampleFds).1.1.2 = "".
Proof.
  destruct (new_console_result_shape kernelChownFails sampleFds)
    as (Hmaster & Hpath & _).
  split; [apply Hmaster | apply Hpath]; discriminate.
Defined.

(** X16. NewConsole succeeds exactly when the multiplexer opens, the slave
    number is read, the slave is unlocked and the mode and the owner of the
    slave are set; the path it returns is "/dev/pts/" followed by the
    decimal slave number. Otherwise the error is that of the first of these
    steps that fails, in this order. *)
Theorem new_console_succeeds_iff (k : Kernel) (fds : Fds) master console :
  ((NewConsole k fds).1 = (Some master, console, None) <->
   openPtmx k = Some master /\
   exists n, ioctlTIOCGPTN k master = Some n /\
             console = "/dev/pts/" ++ Itoa n /\
             ioctlTIOCSPTLCK k master = true /\
             chmod k console = true /\ chown k console = true) /\
  (openPtmx k = Some master ->
     (ioctlTIOCGPTN k master = None -> (NewConsole k fds).1.2 = Some ErrPtsname) /\
     (forall n, ioctlTIOCGPTN k master = Some n ->
        (ioctlTIOCSPTLCK k master = false -> (NewConsole k fds).1.2 = Some ErrUnlockpt) /\
        (ioctlTIOCSPTLCK k master = true ->
           (chmod k ("/dev/pts/" ++ Itoa n) = false ->
              (NewConsole k fds).1.2 = Some ErrChmod) /\
           (chmod k ("/dev/pts/" ++ Itoa n) = true ->
            chown k ("/dev/pts/" ++ Itoa n) = false ->
              (NewConsole k fds).1.2 = Some ErrChown)))).
Proof.
  unfold NewConsole, ptsname, unlockpt. split.
  - split.
    + destruct (openPtmx k) as [m|] eqn:Hopen; [|discriminate].
      destruct (ioctlTIOCGPTN k m) as [n|] eqn:Hn; [|discriminate].
      destruct (ioctlTIOCSPTLCK k m) eqn:Hu; [|discriminate].
      destruct (chmod k ("/dev/pts/" ++ Itoa n)) eqn:Hm; [|discriminate].
      destruct (chown k ("/dev/pts/" ++ Itoa n)) eqn:Ho; [|discriminate].
      simpl. intros H. inversion H; subst. split; [reflexivity|].
      exists n. auto.
    + intros (Hopen & n & Hn & -> & Hu & Hm & Ho).
      now rewrite Hopen, Hn, Hu, Hm, Ho.
  - intros Hopen. rewrite Hopen. split.
    + now intros ->.
    + intros n ->. split.
      * now intros ->.
      * intros ->. split.
        -- now intros ->.
        -- now intros -> ->.
Qed.

Lemma new_console_succeeds_iff_witness :
  (NewConsole kernelFine sampleFds).1 = (Some 5, "/dev/pts/3", None).
Proof.
  apply (proj1 (new_console_succeeds_iff kernelFine sampleFds 5 "/dev/pts/3")).
  split; [reflexivity|]. exists 3. repeat split; reflexivity.
Defined.

End PtyMore.
